(** * Skynet: hypothesis evaluation services

    A shallow embedding of the NestJS services of the repository
    (hypotheses, relationships, market data, events, ingestion base
    class) together with the properties the specification states
    about them.

    Conventions.
    - JavaScript numbers that carry prices, p-values and hit rates are
      modelled by rationals [Q]; [Date] values by their epoch
      milliseconds in [Z]; uuid primary keys by [string].
    - A TypeORM repository is a finite map from primary key to row;
      [find] with an [order] clause is a sort of the selected rows.
    - Every service method threads the state of the application (tables
      and the log of emitted application events) explicitly. *)

From Stdlib Require Import QArith Qminmax Lqa.
From stdpp Require Import gmap strings list sorting.

Local Open Scope Q_scope.

(** ** Multiple-testing corrector *)

Module Corrector.

Record Correction := {
  adjustedPValue : Q;
  isSignificant : bool
}.

Definition defaultFamilyWiseAlpha : Q := 5 # 100.

(** The size of the hypothesis population as a number. *)
Definition population (populationSize : nat) : Q :=
  inject_Z (Z.of_nat populationSize).

(** Modelled from the spec: the Bonferroni corrector
    [correct(pValue, populationSize, familyWiseAlpha = 0.05)] lives in
    the Python analysis worker (stats.py), which is not among the
    TypeScript sources.  Section 4.3 of the specification gives
    [adjustedPValue = min(1, pValue * populationSize)] and
    [isSignificant = adjustedPValue < familyWiseAlpha]. *)
Definition correct (pValue : Q) (populationSize : nat)
    (familyWiseAlpha : Q) : Correction :=
  let adjusted := Qmin 1 (pValue * population populationSize) in
  {| adjustedPValue := adjusted;
     isSignificant := if Qlt_le_dec adjusted familyWiseAlpha
                      then true else false |}.

(** The call with the default [familyWiseAlpha]. *)
Definition correct_default (pValue : Q) (populationSize : nat) : Correction :=
  correct pValue populationSize defaultFamilyWiseAlpha.

End Corrector.

(** ** Entities (src/entities) *)

(** A [jsonb] column: the serialized document. *)
Definition Json := string.

(** [Date] values: milliseconds since the epoch. *)
Definition Date := Z.
Bind Scope Z_scope with Date.

Module HypothesisEntity.

Inductive HypothesisStatus := PENDING | RUNNING | COMPLETED | FAILED.

Inductive TestType :=
  CORRELATION | GRANGER_CAUSALITY | EVENT_STUDY | PERMUTATION.

Global Instance HypothesisStatus_eq_dec : EqDecision HypothesisStatus.
Proof. solve_decision. Defined.

Global Instance TestType_eq_dec : EqDecision TestType.
Proof. solve_decision. Defined.

(** The entity [Hypothesis], a row of table [hypotheses] (the name
    is reserved in Rocq); nullable columns are options, the
    result columns are "populated after test runs". *)
Record HypothesisRow := {
  id : string;
  hypothesis : string;
  nullHypothesis : string;
  eventType : string;
  marketAsset : string;
  testType : TestType;
  lookbackDays : Z;
  status : HypothesisStatus;
  pValue : option Q;
  hitRate : option Q;
  edge : option Q;
  sampleSize : option Z;
  testResults : option Json;
  errorMessage : option string;
  aiGenerated : bool;
  aiConfidence : option Q;
  createdAt : Date;
  testedAt : Date
}.

End HypothesisEntity.

(** [Partial<Hypothesis>] as the service passes it to
    [repository.update]: the columns the service ever sets; [None] is an
    absent ([undefined]) property, which TypeORM leaves out of the
    [UPDATE]. *)
Module HypothesisPatch.
Import HypothesisEntity.

Record t := {
  status : option HypothesisStatus;
  pValue : option Q;
  hitRate : option Q;
  edge : option Q;
  sampleSize : option Z;
  testResults : option Json;
  errorMessage : option string;
  testedAt : option Date
}.

End HypothesisPatch.

Module RelationshipEntity.

(** The row of table [relationships]. *)
Record Relationship := {
  id : string;
  eventType : string;
  marketAsset : string;
  hitRate : Q;
  edge : Q;
  pValue : Q;
  sampleSize : Z;
  description : option string;
  metadata : option Json;
  isSignificant : bool;
  discoveredAt : Date;
  validatedAt : Date
}.

End RelationshipEntity.

(** [Partial<Relationship>] as [RelationshipsService.create] receives
    it.  The columns without a default and without [nullable] are
    mandatory here: the database refuses a row that lacks one.
    [isSignificant] has the column default [true]. *)
Module RelationshipData.

Record t := {
  eventType : string;
  marketAsset : string;
  hitRate : Q;
  edge : Q;
  pValue : Q;
  sampleSize : Z;
  description : option string;
  metadata : option Json;
  isSignificant : option bool
}.

End RelationshipData.

(** ** Application events (src/common/events.ts) *)

Module AppEvents.
Import HypothesisEntity.

Inductive TestedStatus := completed | failed.

(** One constructor per event name the services below emit, carrying
    the payload of that name. *)
Inductive AppEvent :=
| HYPOTHESIS_TESTED (hypothesisId : string) (status : TestedStatus)
    (pValue hitRate : option Q)
| ANALYSIS_REQUESTED (hypothesisId eventType marketAsset : string)
    (testType : TestType)
| RELATIONSHIP_DISCOVERED (relationshipId eventType marketAsset : string)
    (pValue hitRate : Q).

End AppEvents.

(** ** Application state and the service monad *)

Record App := {
  hypothesesRepository : gmap string HypothesisEntity.HypothesisRow;
  relationshipsRepository : gmap string RelationshipEntity.Relationship;
  (** what [eventEmitter.emit] has been called with, oldest first *)
  emitted : list AppEvents.AppEvent
}.

(** A service method: reads and writes the application state. *)
Definition Service (A : Type) : Type := App → A * App.

Global Instance Service_ret : MRet Service := λ A a app, (a, app).

Global Instance Service_bind : MBind Service :=
  λ A B f m app, let '(a, app') := m app in f a app'.

Definition emit (e : AppEvents.AppEvent) : Service unit :=
  λ app,
    (tt, {| hypothesesRepository := hypothesesRepository app;
            relationshipsRepository := relationshipsRepository app;
            emitted := emitted app ++ [e] |}).

(** ** HypothesesService (src/modules/hypotheses/hypotheses.service.ts) *)

Module HypothesesService.
Import HypothesisEntity AppEvents.

(** The value of a column after an [UPDATE]: the patch's when the
    property is present, the old one otherwise. *)
Definition setColumn {A} (new : option A) (old : A) : A :=
  match new with Some v => v | None => old end.

Definition setNullable {A} (new : option A) (old : option A) : option A :=
  match new with Some v => Some v | None => old end.

(** The row after [UPDATE hypotheses SET ... WHERE id = ...] at time
    [now].  [testedAt] is an [@UpdateDateColumn]: when the patch does
    not set it, the update stamps it with the current time. *)
Definition applyPatch (patch : HypothesisPatch.t) (now : Date)
    (h : HypothesisRow) : HypothesisRow :=
  {| id := id h;
     hypothesis := hypothesis h;
     nullHypothesis := nullHypothesis h;
     eventType := eventType h;
     marketAsset := marketAsset h;
     testType := testType h;
     lookbackDays := lookbackDays h;
     status := setColumn (HypothesisPatch.status patch) (status h);
     pValue := setNullable (HypothesisPatch.pValue patch) (pValue h);
     hitRate := setNullable (HypothesisPatch.hitRate patch) (hitRate h);
     edge := setNullable (HypothesisPatch.edge patch) (edge h);
     sampleSize :=
       setNullable (HypothesisPatch.sampleSize patch) (sampleSize h);
     testResults :=
       setNullable (HypothesisPatch.testResults patch) (testResults h);
     errorMessage :=
       setNullable (HypothesisPatch.errorMessage patch) (errorMessage h);
     aiGenerated := aiGenerated h;
     aiConfidence := aiConfidence h;
     createdAt := createdAt h;
     testedAt := setColumn (HypothesisPatch.testedAt patch) now |}.

(** [hypothesesRepository.update(id, patch)]: changes the row with
    that primary key, no row when there is none. *)
Definition update (key : string) (patch : HypothesisPatch.t) (now : Date)
    : Service unit :=
  λ app,
    (tt, {| hypothesesRepository :=
              alter (applyPatch patch now) key (hypothesesRepository app);
            relationshipsRepository := relationshipsRepository app;
            emitted := emitted app |}).

(** [hypothesesRepository.find()]: all rows. *)
Definition find : Service (list HypothesisRow) :=
  λ app, ((map_to_list (hypothesesRepository app)).*2, app).

(** The order [{ createdAt: 'ASC' }]. *)
Definition createdAtAsc : relation HypothesisRow :=
  λ a b, (createdAt a ≤ createdAt b)%Z.

Global Instance createdAtAsc_dec : RelDecision createdAtAsc.
Proof. intros a b. unfold createdAtAsc. apply _. Defined.

Definition isPending (h : HypothesisRow) : bool :=
  bool_decide (status h = PENDING).

Definition findPending : Service (list HypothesisRow) :=
  all ← find;
  mret (merge_sort createdAtAsc (List.filter isPending all)).

Definition findOne (key : string) : Service (option HypothesisRow) :=
  λ app, (hypothesesRepository app !! key, app).

(** The [AnalysisRequestedPayload] built for the Python worker. *)
Definition requestFor (key : string) (h : HypothesisRow) : AppEvent :=
  ANALYSIS_REQUESTED key (eventType h) (marketAsset h) (testType h).

Definition queueForTesting (key : string) (now : Date)
    : Service (option HypothesisRow) :=
  found ← findOne key;
  match found with
  | None => mret None
  | Some h =>
      update key
        {| HypothesisPatch.status := Some RUNNING;
           HypothesisPatch.pValue := None;
           HypothesisPatch.hitRate := None;
           HypothesisPatch.edge := None;
           HypothesisPatch.sampleSize := None;
           HypothesisPatch.testResults := None;
           HypothesisPatch.errorMessage := None;
           HypothesisPatch.testedAt := None |} now;;
      emit (requestFor key h);;
      findOne key
  end.

(** The [results] argument of [updateResults]. *)
Module Results.
Record t := {
  pValue : Q;
  hitRate : Q;
  edge : Q;
  sampleSize : Z;
  testResults : option Json
}.
End Results.

Definition updateResults (key : string) (results : Results.t) (now : Date)
    : Service (option HypothesisRow) :=
  update key
    {| HypothesisPatch.status := Some COMPLETED;
       HypothesisPatch.pValue := Some (Results.pValue results);
       HypothesisPatch.hitRate := Some (Results.hitRate results);
       HypothesisPatch.edge := Some (Results.edge results);
       HypothesisPatch.sampleSize := Some (Results.sampleSize results);
       HypothesisPatch.testResults := Results.testResults results;
       HypothesisPatch.errorMessage := None;
       HypothesisPatch.testedAt := Some now |} now;;
  emit (HYPOTHESIS_TESTED key completed
          (Some (Results.pValue results))
          (Some (Results.hitRate results)));;
  findOne key.

Definition markFailed (key : string) (message : string) (now : Date)
    : Service (option HypothesisRow) :=
  update key
    {| HypothesisPatch.status := Some FAILED;
       HypothesisPatch.pValue := None;
       HypothesisPatch.hitRate := None;
       HypothesisPatch.edge := None;
       HypothesisPatch.sampleSize := None;
       HypothesisPatch.testResults := None;
       HypothesisPatch.errorMessage := Some message;
       HypothesisPatch.testedAt := Some now |} now;;
  emit (HYPOTHESIS_TESTED key failed None None);;
  findOne key.

Record Stats := {
  total : nat;
  pending : nat;
  running : nat;
  completed_ : nat;
  failed_ : nat;
  significant : nat
}.

Definition hasStatus (s : HypothesisStatus) (h : HypothesisRow) : bool :=
  bool_decide (status h = s).

(** [h.status === COMPLETED && h.pValue !== null && Number(h.pValue) < 0.05] *)
Definition countsAsSignificant (h : HypothesisRow) : bool :=
  hasStatus COMPLETED h &&
  match pValue h with
  | Some p => if Qlt_le_dec p (5 # 100) then true else false
  | None => false
  end.

Definition getStats : Service Stats :=
  all ← find;
  mret {| total := length all;
          pending := length (List.filter (hasStatus PENDING) all);
          running := length (List.filter (hasStatus RUNNING) all);
          completed_ := length (List.filter (hasStatus COMPLETED) all);
          failed_ := length (List.filter (hasStatus FAILED) all);
          significant := length (List.filter countsAsSignificant all) |}.

End HypothesesService.

(** ** RelationshipsService (src/modules/relationships/relationships.service.ts) *)

Module RelationshipsService.
Import RelationshipEntity AppEvents.

(** The flag a relationship is stored with: the caller's, or the
    column default [true]. *)
Definition storedFlag (data : RelationshipData.t) : bool :=
  match RelationshipData.isSignificant data with
  | Some b => b
  | None => true
  end.

(** [relationshipsRepository.create(data)]: the entity to insert, the
    primary key and both date columns being generated on [save]. *)
Definition newRelationship (data : RelationshipData.t) (newId : string)
    (now : Date) : Relationship :=
  {| id := newId;
     eventType := RelationshipData.eventType data;
     marketAsset := RelationshipData.marketAsset data;
     hitRate := RelationshipData.hitRate data;
     edge := RelationshipData.edge data;
     pValue := RelationshipData.pValue data;
     sampleSize := RelationshipData.sampleSize data;
     description := RelationshipData.description data;
     metadata := RelationshipData.metadata data;
     isSignificant := storedFlag data;
     discoveredAt := now;
     validatedAt := now |}.

Definition save (r : Relationship) : Service Relationship :=
  λ app,
    (r, {| hypothesesRepository := hypothesesRepository app;
           relationshipsRepository :=
             <[id r := r]> (relationshipsRepository app);
           emitted := emitted app |}).

(** [newId] is the uuid the database generates for the row. *)
Definition create (data : RelationshipData.t) (newId : string) (now : Date)
    : Service Relationship :=
  saved ← save (newRelationship data newId now);
  emit (RELATIONSHIP_DISCOVERED (id saved) (eventType saved)
          (marketAsset saved) (pValue saved) (hitRate saved));;
  mret saved.

End RelationshipsService.

(** ** BaseIngestionService (src/ingestion/base.service.ts) *)

Module BaseIngestionService.

(** What one call of the fetch function [fn] does: its promise
    resolves with a value or rejects with an error. *)
Inductive Settled (T E : Type) :=
| Resolved (value : T)
| Rejected (error : E).
Global Arguments Resolved {T E} value.
Global Arguments Rejected {T E} error.

(** What [fetchWithRetry] throws: the error of [fn], or the guard
    after the loop. *)
Inductive Thrown (E : Type) :=
| Rethrown (error : E)
| ShouldNotReachHere.
Global Arguments Rethrown {E} error.
Global Arguments ShouldNotReachHere {E}.

(** The observable steps of a run, in order. *)
Inductive Step (E : Type) :=
| Call (i : nat)
| Warn (attempt retries : nat) (error : E)
| Sleep (ms : Z).
Global Arguments Call {E} i.
Global Arguments Warn {E} attempt retries error.
Global Arguments Sleep {E} ms.

Section Retry.
Context {T E : Type}.

(** [fn] is a thunk and may answer differently each time: [fn i] is
    what its call number [i] (from 0) settles to. *)
Variable fn : nat → Settled T E.

(** The [for] loop from index [i] on, [fuel = retries - i] being the
    iterations left before [i < retries] fails. *)
Fixpoint loop (retries : nat) (delay : Z) (fuel i : nat)
    : Settled T (Thrown E) * list (Step E) :=
  match fuel with
  | O => (Rejected ShouldNotReachHere, [])
  | S fuel' =>
      match fn i with
      | Resolved value => (Resolved value, [Call i])
      | Rejected error =>
          if bool_decide (Z.of_nat i < Z.of_nat retries - 1)%Z then
            let '(result, steps) := loop retries delay fuel' (S i) in
            (result,
             [Call i; Warn (i + 1) retries error;
              Sleep (delay * 2 ^ Z.of_nat i)%Z] ++ steps)
          else
            (Rejected (Rethrown error),
             [Call i; Warn (i + 1) retries error])
      end
  end.

Definition fetchWithRetry (retries : nat) (delay : Z)
    : Settled T (Thrown E) * list (Step E) :=
  loop retries delay retries 0.

(** The call with the default [retries = 3] and [delay = 1000]. *)
Definition fetchWithRetry_default : Settled T (Thrown E) * list (Step E) :=
  fetchWithRetry 3 1000.

End Retry.

(** The delays slept, and the number of calls of [fn], in a run. *)
Fixpoint sleeps {E} (steps : list (Step E)) : list Z :=
  match steps with
  | [] => []
  | Sleep ms :: rest => ms :: sleeps rest
  | _ :: rest => sleeps rest
  end.

Fixpoint calls {E} (steps : list (Step E)) : nat :=
  match steps with
  | [] => 0
  | Call _ :: rest => S (calls rest)
  | _ :: rest => calls rest
  end.

(** The steps of the failed calls number [first], [first + 1], ...,
    whose errors are [errors], each followed by its warning and its
    sleep. *)
Fixpoint retryTrace {E} (retries : nat) (delay : Z) (first : nat)
    (errors : list E) : list (Step E) :=
  match errors with
  | [] => []
  | error :: rest =>
      Call first :: Warn (first + 1) retries error ::
      Sleep (delay * 2 ^ Z.of_nat first)%Z ::
      retryTrace retries delay (S first) rest
  end.

(** The backoff schedule: [delay * 2^i] for [i = first, ..., first + n - 1]. *)
Definition backoff (delay : Z) (first n : nat) : list Z :=
  (λ i, (delay * 2 ^ Z.of_nat i)%Z) <$> seq first n.

End BaseIngestionService.

(** ** MarketDataService (src/modules/market-data/market-data.service.ts) *)

Module MarketDataEntity.

Record MarketData := {
  id : string;
  timestamp : Date;
  asset : string;
  price : Q;
  open : option Q;
  high : option Q;
  low : option Q;
  close : option Q;
  volume : option Q;
  metadata : option Json
}.

End MarketDataEntity.

Module MarketDataService.
Import MarketDataEntity.

Record PricePoint := { pointTimestamp : Date; pointPrice : Q }.

(** An element of the result of [getReturns]; the field [return] is
    spelled [return_]. *)
Record ReturnPoint := { returnTimestamp : Date; return_ : Q }.

Definition timestampAsc : relation MarketData :=
  λ a b, (timestamp a ≤ timestamp b)%Z.

Global Instance timestampAsc_dec : RelDecision timestampAsc.
Proof. intros a b. unfold timestampAsc. apply _. Defined.

(** The [WHERE] clause of [findByAsset]: the asset, and the date
    conditions for the bounds that are given. *)
Definition selected (wanted : string) (startDate endDate : option Date)
    (md : MarketData) : bool :=
  bool_decide (asset md = wanted) &&
  match startDate, endDate with
  | Some s, Some e =>
      bool_decide (s ≤ timestamp md)%Z && bool_decide (timestamp md ≤ e)%Z
  | Some s, None => bool_decide (s ≤ timestamp md)%Z
  | None, Some e => bool_decide (timestamp md ≤ e)%Z
  | None, None => true
  end.

Definition findByAsset (repository : gmap string MarketData)
    (wanted : string) (startDate endDate : option Date) (limit : nat)
    : list MarketData :=
  take limit
    (merge_sort timestampAsc
       (List.filter (selected wanted startDate endDate)
          (map_to_list repository).*2)).

(** [Number(x)] of a nullable decimal column: [null] converts to 0. *)
Definition Number (x : option Q) : Q :=
  match x with Some q => q | None => 0 end.

(** [a || b] on numbers: [b] when [a] is zero. *)
Definition orElse (a b : Q) : Q := if Qeq_bool a 0 then b else a.

Definition getPriceTimeSeries (repository : gmap string MarketData)
    (wanted : string) (startDate endDate : Date) : list PricePoint :=
  (λ d, {| pointTimestamp := timestamp d;
           pointPrice := orElse (Number (close d)) (price d) |})
  <$> findByAsset repository wanted (Some startDate) (Some endDate) 1000.

(** The body of the [for] loop at index [i], [returns] being the
    array built so far. *)
Definition pushReturn (prices : list PricePoint)
    (returns : list ReturnPoint) (i : nat) : list ReturnPoint :=
  match prices !! (i - 1)%nat, prices !! i with
  | Some prev, Some curr =>
      let prevPrice := pointPrice prev in
      let currPrice := pointPrice curr in
      if Qlt_le_dec 0 prevPrice then
        returns ++ [ {| returnTimestamp := pointTimestamp curr;
                        return_ := (currPrice - prevPrice) / prevPrice |} ]
      else returns
  | _, _ => returns
  end.

(** [for (let i = 1; i < prices.length; i++)] *)
Definition returnsOf (prices : list PricePoint) : list ReturnPoint :=
  foldl (pushReturn prices) [] (seq 1 (length prices - 1)).

Definition getReturns (repository : gmap string MarketData)
    (wanted : string) (startDate endDate : Date) : list ReturnPoint :=
  returnsOf (getPriceTimeSeries repository wanted startDate endDate).

(** The simple return of a pair of consecutive prices, if the earlier
    price is strictly positive. *)
Definition simpleReturn (pair : PricePoint * PricePoint)
    : option ReturnPoint :=
  let '(prev, curr) := pair in
  if Qlt_le_dec 0 (pointPrice prev) then
    Some {| returnTimestamp := pointTimestamp curr;
            return_ := (pointPrice curr - pointPrice prev) / pointPrice prev |}
  else None.

(** What a single pair contributes. *)
Definition contribution (pair : PricePoint * PricePoint) : list ReturnPoint :=
  match simpleReturn pair with Some r => [r] | None => [] end.

(** What the claim describes: one simple return for each pair of
    consecutive prices whose earlier price is strictly positive, in
    the order of the series. *)
Definition returnsOfPairs (prices : list PricePoint) : list ReturnPoint :=
  omap simpleReturn (zip prices (tail prices)).

End MarketDataService.

(** ** EventsService (modules/events/events.service.ts) *)

Module EventEntity.

Inductive EventSource := EDGAR | FRED | GDELT | ACLED | POLYMARKET | EIA.

Global Instance EventSource_eq_dec : EqDecision EventSource.
Proof. solve_decision. Defined.

Record Event := {
  id : string;
  timestamp : Date;
  source : EventSource;
  eventType : string;
  entity : option string;
  value : option Q;
  metadata : option Json;
  summary : option string;
  sentiment : option Q;
  embedding : option (list Q);
  ingestedAt : Date
}.

End EventEntity.

Module EventsService.
Import EventEntity.

Record SeriesPoint := {
  pointTimestamp : Date;
  pointValue : Q;
  pointEntity : option string
}.

Definition timestampAsc : relation Event :=
  λ a b, (timestamp a ≤ timestamp b)%Z.

Global Instance timestampAsc_dec : RelDecision timestampAsc.
Proof. intros a b. unfold timestampAsc. apply _. Defined.

(** [find({ where: { source, eventType }, order: { timestamp: 'ASC' } })] *)
Definition findBySourceAndType (repository : gmap string Event)
    (wantedSource : EventSource) (wantedType : string) : list Event :=
  merge_sort timestampAsc
    (List.filter
       (λ e, bool_decide (source e = wantedSource) &&
             bool_decide (eventType e = wantedType))
       (map_to_list repository).*2).

Definition inRange (startDate endDate : Date) (e : Event) : bool :=
  bool_decide (startDate ≤ timestamp e)%Z &&
  bool_decide (timestamp e ≤ endDate)%Z.

(** [e.value ? Number(e.value) : 1].  [value] is a nullable [decimal]
    column, which a row read from the database carries as its decimal
    text: the condition is the truthiness of that text, false for
    [null] only (the text of a number is never empty, and the text of
    zero is truthy), and [Number] reads the text back. *)
Definition valueOrOne (v : option Q) : Q :=
  match v with
  | Some q => q
  | None => 1
  end.

Definition toPoint (e : Event) : SeriesPoint :=
  {| pointTimestamp := timestamp e;
     pointValue := valueOrOne (value e);
     pointEntity := entity e |}.

Definition getEventTimeSeries (repository : gmap string Event)
    (wantedSource : EventSource) (wantedType : string)
    (startDate endDate : Date) : list SeriesPoint :=
  toPoint <$>
    List.filter (inRange startDate endDate)
      (findBySourceAndType repository wantedSource wantedType).

End EventsService.

(** ** HypothesesService: listing and creation *)

(** [Partial<Hypothesis>] as [HypothesesService.create] receives it.
    The columns without a default and without [nullable] are mandatory:
    the database refuses a row that lacks one. *)
Module HypothesisData.
Import HypothesisEntity.

Record t := {
  hypothesis : string;
  nullHypothesis : string;
  eventType : string;
  marketAsset : string;
  testType : TestType;
  lookbackDays : option Z;
  status : option HypothesisStatus;
  pValue : option Q;
  hitRate : option Q;
  edge : option Q;
  sampleSize : option Z;
  testResults : option Json;
  errorMessage : option string;
  aiGenerated : option bool;
  aiConfidence : option Q
}.

End HypothesisData.

Module HypothesesCatalog.
Import HypothesisEntity HypothesesService.

(** The order [{ createdAt: 'DESC' }]. *)
Definition createdAtDesc : relation HypothesisRow :=
  λ a b, (createdAt b ≤ createdAt a)%Z.

Global Instance createdAtDesc_dec : RelDecision createdAtDesc.
Proof. intros a b. unfold createdAtDesc. apply _. Defined.

(** [status ? { status } : {}] *)
Definition matchesStatus (wanted : option HypothesisStatus)
    (h : HypothesisRow) : bool :=
  match wanted with
  | Some s => hasStatus s h
  | None => true
  end.

Definition findAll (wanted : option HypothesisStatus)
    : Service (list HypothesisRow) :=
  all ← find;
  mret (merge_sort createdAtDesc (List.filter (matchesStatus wanted) all)).

(** The payload of [hypothesis.created]. *)
Inductive Created :=
| HYPOTHESIS_CREATED (hypothesisId eventType marketAsset : string).

(** The table of hypotheses and the [hypothesis.created] events
    emitted, oldest first. *)
Record Catalog := {
  rows : gmap string HypothesisRow;
  announced : list Created
}.

(** [hypothesesRepository.create(data)] as [save] stores it: column
    defaults for what [data] leaves out, the primary key and both date
    columns generated on insert. *)
Definition newHypothesis (data : HypothesisData.t) (newId : string)
    (now : Date) : HypothesisRow :=
  {| id := newId;
     hypothesis := HypothesisData.hypothesis data;
     nullHypothesis := HypothesisData.nullHypothesis data;
     eventType := HypothesisData.eventType data;
     marketAsset := HypothesisData.marketAsset data;
     testType := HypothesisData.testType data;
     lookbackDays := default 365%Z (HypothesisData.lookbackDays data);
     status := default PENDING (HypothesisData.status data);
     pValue := HypothesisData.pValue data;
     hitRate := HypothesisData.hitRate data;
     edge := HypothesisData.edge data;
     sampleSize := HypothesisData.sampleSize data;
     testResults := HypothesisData.testResults data;
     errorMessage := HypothesisData.errorMessage data;
     aiGenerated := default false (HypothesisData.aiGenerated data);
     aiConfidence := HypothesisData.aiConfidence data;
     createdAt := now;
     testedAt := now |}.

(** [newId] and [now] are the uuid and the time the database assigns
    to the insert. *)
Definition create (data : HypothesisData.t) (newId : string) (now : Date)
    (catalog : Catalog) : HypothesisRow * Catalog :=
  let saved := newHypothesis data newId now in
  (saved,
   {| rows := <[id saved := saved]> (rows catalog);
      announced :=
        announced catalog
        ++ [HYPOTHESIS_CREATED (id saved) (eventType saved)
              (marketAsset saved)] |}).

(** An element of [commonTests]. *)
Record CommonTest := {
  testHypothesis : string;
  testNullHypothesis : string;
  testEventType : string;
  testMarketAsset : string;
  testTestType : TestType
}.

Definition commonTests : list CommonTest :=
  [ {| testHypothesis :=
         "Insider buying clusters predict stock outperformance";
       testNullHypothesis :=
         "Insider buying has no predictive value for future returns";
       testEventType := "insider_buy";
       testMarketAsset := "equity_sector";
       testTestType := EVENT_STUDY |};
    {| testHypothesis :=
         "VIX spikes above 25 predict increased equity volatility";
       testNullHypothesis :=
         "VIX level has no predictive value for future volatility";
       testEventType := "vix_spike";
       testMarketAsset := "SPY";
       testTestType := GRANGER_CAUSALITY |};
    {| testHypothesis :=
         "Geopolitical conflict events predict oil price volatility";
       testNullHypothesis :=
         "Conflict events have no effect on oil price volatility";
       testEventType := "conflict";
       testMarketAsset := "WTI";
       testTestType := EVENT_STUDY |};
    {| testHypothesis :=
         "Fed speech sentiment predicts treasury yield movements";
       testNullHypothesis :=
         "Fed speech sentiment has no predictive value for yields";
       testEventType := "fed_speech";
       testMarketAsset := "TLT";
       testTestType := CORRELATION |};
    {| testHypothesis :=
         "Prediction market probability shifts lead equity sector moves";
       testNullHypothesis :=
         "Prediction markets do not lead equity price movements";
       testEventType := "polymarket_shift";
       testMarketAsset := "sector_etf";
       testTestType := GRANGER_CAUSALITY |} ].

(** The [where] clause of the lookup in [generateCommonHypotheses]. *)
Definition sameTest (test : CommonTest) (h : HypothesisRow) : bool :=
  bool_decide (eventType h = testEventType test) &&
  bool_decide (marketAsset h = testMarketAsset test) &&
  bool_decide (testType h = testTestType test).

(** [findOne({ where: { eventType, marketAsset, testType } })]: some
    row that matches, null if there is none. *)
Definition existing (test : CommonTest) (catalog : Catalog)
    : option HypothesisRow :=
  head (List.filter (sameTest test) (map_to_list (rows catalog)).*2).

(** [{ ...test, aiGenerated: false }] *)
Definition dataOf (test : CommonTest) : HypothesisData.t :=
  {| HypothesisData.hypothesis := testHypothesis test;
     HypothesisData.nullHypothesis := testNullHypothesis test;
     HypothesisData.eventType := testEventType test;
     HypothesisData.marketAsset := testMarketAsset test;
     HypothesisData.testType := testTestType test;
     HypothesisData.lookbackDays := None;
     HypothesisData.status := None;
     HypothesisData.pValue := None;
     HypothesisData.hitRate := None;
     HypothesisData.edge := None;
     HypothesisData.sampleSize := None;
     HypothesisData.testResults := None;
     HypothesisData.errorMessage := None;
     HypothesisData.aiGenerated := Some false;
     HypothesisData.aiConfidence := None |}.

(** The body of the loop over [commonTests]; [hypotheses] is the array
    of the rows created so far, and [supply n] the uuid and time the
    database assigns to insert number [n] of the call. *)
Definition createIfMissing (supply : nat → string * Date)
    (state : Catalog * list HypothesisRow) (test : CommonTest)
    : Catalog * list HypothesisRow :=
  let '(catalog, hypotheses) := state in
  match existing test catalog with
  | Some _ => (catalog, hypotheses)
  | None =>
      let '(newId, now) := supply (length hypotheses) in
      let '(created, catalog') := create (dataOf test) newId now catalog in
      (catalog', hypotheses ++ [created])
  end.

Definition generateCommonHypotheses (supply : nat → string * Date)
    (catalog : Catalog) : list HypothesisRow * Catalog :=
  let '(catalog', hypotheses) :=
    foldl (createIfMissing supply) (catalog, []) commonTests in
  (hypotheses, catalog').

(** A hypothesis for the test is stored. *)
Definition stored (test : CommonTest) (catalog : Catalog) : Prop :=
  ∃ key h, rows catalog !! key = Some h ∧ sameTest test h = true.

(** The keys of the table during a call: those of [initial] and the
    uuids handed out for the rows created so far. *)
Definition grown (supply : nat → string * Date) (initial catalog : Catalog)
    (hypotheses : list HypothesisRow) : Prop :=
  ∀ key, is_Some (rows catalog !! key) →
    is_Some (rows initial !! key) ∨
    ∃ j, (j < length hypotheses)%nat ∧ key = (supply j).1.

End HypothesesCatalog.

(** ** Comparisons of numbers *)

Module QDecision.

(** The orders on numbers can be decided. *)
Global Instance Qle_dec : RelDecision Qle.
Proof.
  intros a b. destruct (Qlt_le_dec b a) as [Hlt | Hle].
  - right. by apply Qlt_not_le.
  - left. exact Hle.
Defined.

Global Instance Qlt_dec : RelDecision Qlt.
Proof.
  intros a b. destruct (Qlt_le_dec a b) as [Hlt | Hle].
  - left. exact Hlt.
  - right. by apply Qle_not_lt.
Defined.

End QDecision.

(** ** RelationshipsService: queries and statistics *)

Module RelationshipsQueries.
Import RelationshipEntity.

(** [relationshipsRepository.find()]: all rows. *)
Definition find : Service (list Relationship) :=
  λ app, ((map_to_list (relationshipsRepository app)).*2, app).

(** The orders [{ pValue: 'ASC' }] and [{ hitRate: 'DESC' }]. *)
Definition pValueAsc : relation Relationship :=
  λ a b, pValue a <= pValue b.

Definition hitRateDesc : relation Relationship :=
  λ a b, hitRate b <= hitRate a.

Global Instance pValueAsc_dec : RelDecision pValueAsc.
Proof. intros a b. unfold pValueAsc. apply _. Defined.

Global Instance hitRateDesc_dec : RelDecision hitRateDesc.
Proof. intros a b. unfold hitRateDesc. apply _. Defined.

(** [onlySignificant ? { isSignificant: true } : {}] *)
Definition wantedBy (onlySignificant : bool) (r : Relationship) : bool :=
  if onlySignificant then isSignificant r else true.

Definition findAll (onlySignificant : bool) : Service (list Relationship) :=
  all ← find;
  mret (merge_sort pValueAsc (List.filter (wantedBy onlySignificant) all)).

Definition findOne (key : string) : Service (option Relationship) :=
  λ app, (relationshipsRepository app !! key, app).

(** [{ pValue: LessThanOrEqual(maxPValue), isSignificant: true }] *)
Definition significantWithin (maxPValue : Q) (r : Relationship) : bool :=
  bool_decide (pValue r <= maxPValue) && isSignificant r.

Definition findSignificant (maxPValue : Q) : Service (list Relationship) :=
  all ← find;
  mret (merge_sort hitRateDesc
          (List.filter (significantWithin maxPValue) all)).

(** The call with the default [maxPValue = 0.05]. *)
Definition findSignificant_default : Service (list Relationship) :=
  findSignificant (5 # 100).

(** The result of [getStats]; [number] is the type of JS numbers. *)
Record Stats (number : Type) := {
  total : nat;
  significant : nat;
  avgHitRate : number;
  avgEdge : number
}.

Arguments total {number} _.
Arguments significant {number} _.
Arguments avgHitRate {number} _.
Arguments avgEdge {number} _.

Section Statistics.

(** The averages are computed on JS numbers, IEEE doubles whose sum
    and quotient round; the arithmetic is left open: [Number] reads a
    decimal column, [zero] is the literal [0], [plus] is [+] and
    [quotient] is the division by a length. *)
Context {number : Type}.
Variable Number : Q → number.
Variable zero : number.
Variable plus : number → number → number.
Variable quotient : number → nat → number.

(** [rows.reduce((sum, r) => sum + Number(r.<column>), 0)] *)
Definition sumOf (column : Relationship → Q) (rows : list Relationship)
    : number :=
  foldl (λ sum r, plus sum (Number (column r))) zero rows.

(** [rows.length > 0 ? sum / rows.length : 0] *)
Definition averageOf (column : Relationship → Q) (rows : list Relationship)
    : number :=
  if bool_decide (0 < length rows)%nat
  then quotient (sumOf column rows) (length rows)
  else zero.

Definition getStats : Service (Stats number) :=
  all ← find;
  let significant := List.filter isSignificant all in
  mret {| total := length all;
          significant := length significant;
          avgHitRate := averageOf hitRate significant;
          avgEdge := averageOf edge significant |}.

End Statistics.

End RelationshipsQueries.

(** ** AlertsService (src/modules/alerts/alerts.service.ts) *)

Module AlertEntity.

Inductive AlertSeverity := LOW | MEDIUM | HIGH | CRITICAL.

Global Instance AlertSeverity_eq_dec : EqDecision AlertSeverity.
Proof. solve_decision. Defined.

(** The columns of table [alerts].  The relation properties [event]
    and [relationship] are no columns: [findOne] joins them in from the
    other tables by [eventId] and [relationshipId]. *)
Record Alert := {
  id : string;
  signalType : string;
  title : string;
  message : string;
  severity : AlertSeverity;
  confidence : option Q;
  eventId : option string;
  relationshipId : option string;
  metadata : option Json;
  aiAnalysis : option string;
  isRead : bool;
  isDismissed : bool;
  createdAt : Date
}.

End AlertEntity.

(** [Partial<Alert>] as [AlertsService.create] receives it; the columns
    without a default and without [nullable] are mandatory. *)
Module AlertData.
Import AlertEntity.

Record t := {
  signalType : string;
  title : string;
  message : string;
  severity : option AlertSeverity;
  confidence : option Q;
  eventId : option string;
  relationshipId : option string;
  metadata : option Json;
  aiAnalysis : option string;
  isRead : option bool;
  isDismissed : option bool
}.

End AlertData.

(** The [filters] argument of [AlertsService.findAll]. *)
Module AlertFilters.
Import AlertEntity.

Record t := {
  severity : option AlertSeverity;
  signalType : option string;
  isRead : option bool;
  limit : option nat;
  offset : option nat
}.

End AlertFilters.

Module AlertsService.
Import AlertEntity.

(** The payload of [alert.triggered]. *)
Inductive Triggered :=
| ALERT_TRIGGERED (alertId signalType : string) (severity : AlertSeverity)
    (eventId relationshipId : option string).

(** The table of alerts and the [alert.triggered] events emitted,
    oldest first. *)
Record Alerts := {
  alertsRepository : gmap string Alert;
  triggered : list Triggered
}.

Definition newAlert (data : AlertData.t) (newId : string) (now : Date)
    : Alert :=
  {| id := newId;
     signalType := AlertData.signalType data;
     title := AlertData.title data;
     message := AlertData.message data;
     severity := default MEDIUM (AlertData.severity data);
     confidence := AlertData.confidence data;
     eventId := AlertData.eventId data;
     relationshipId := AlertData.relationshipId data;
     metadata := AlertData.metadata data;
     aiAnalysis := AlertData.aiAnalysis data;
     isRead := default false (AlertData.isRead data);
     isDismissed := default false (AlertData.isDismissed data);
     createdAt := now |}.

(** [newId] and [now] are the uuid and the time the database assigns
    to the insert. *)
Definition create (data : AlertData.t) (newId : string) (now : Date)
    (state : Alerts) : Alert * Alerts :=
  let saved := newAlert data newId now in
  (saved,
   {| alertsRepository := <[id saved := saved]> (alertsRepository state);
      triggered :=
        triggered state
        ++ [ALERT_TRIGGERED (id saved) (signalType saved) (severity saved)
              (eventId saved) (relationshipId saved)] |}).

(** The order [alert.createdAt DESC]. *)
Definition createdAtDesc : relation Alert :=
  λ a b, (createdAt b ≤ createdAt a)%Z.

Global Instance createdAtDesc_dec : RelDecision createdAtDesc.
Proof. intros a b. unfold createdAtDesc. apply _. Defined.

(** The [WHERE] clause of [findAll].  [if (signalType)] holds for a
    string that is not empty; the condition on [isDismissed] is always
    added. *)
Definition passes (filters : AlertFilters.t) (a : Alert) : bool :=
  match AlertFilters.severity filters with
  | Some wanted => bool_decide (severity a = wanted)
  | None => true
  end &&
  match AlertFilters.signalType filters with
  | Some wanted =>
      if bool_decide (wanted = "") then true
      else bool_decide (signalType a = wanted)
  | None => true
  end &&
  match AlertFilters.isRead filters with
  | Some wanted => bool_decide (isRead a = wanted)
  | None => true
  end &&
  negb (isDismissed a).

(** [skip(offset).take(limit)] with the defaults [limit = 50] and
    [offset = 0], for a limit that is at least 1. *)
Definition findAll (filters : AlertFilters.t) (state : Alerts) : list Alert :=
  take (default 50%nat (AlertFilters.limit filters))
    (drop (default 0%nat (AlertFilters.offset filters))
       (merge_sort createdAtDesc
          (List.filter (passes filters)
             (map_to_list (alertsRepository state)).*2))).

Definition setRead (a : Alert) : Alert :=
  {| id := id a; signalType := signalType a; title := title a;
     message := message a; severity := severity a;
     confidence := confidence a; eventId := eventId a;
     relationshipId := relationshipId a; metadata := metadata a;
     aiAnalysis := aiAnalysis a; isRead := true;
     isDismissed := isDismissed a; createdAt := createdAt a |}.

Definition setDismissed (a : Alert) : Alert :=
  {| id := id a; signalType := signalType a; title := title a;
     message := message a; severity := severity a;
     confidence := confidence a; eventId := eventId a;
     relationshipId := relationshipId a; metadata := metadata a;
     aiAnalysis := aiAnalysis a; isRead := isRead a;
     isDismissed := true; createdAt := createdAt a |}.

(** The columns of the row with that primary key. *)
Definition findOne (key : string) (state : Alerts) : option Alert :=
  alertsRepository state !! key.

Definition markRead (key : string) (state : Alerts) : option Alert * Alerts :=
  let state' :=
    {| alertsRepository := alter setRead key (alertsRepository state);
       triggered := triggered state |} in
  (findOne key state', state').

Definition markDismissed (key : string) (state : Alerts)
    : option Alert * Alerts :=
  let state' :=
    {| alertsRepository := alter setDismissed key (alertsRepository state);
       triggered := triggered state |} in
  (findOne key state', state').

(** [{ isRead: false, isDismissed: false }] *)
Definition unread (a : Alert) : bool :=
  negb (isRead a) && negb (isDismissed a).

Definition getUnreadCount (state : Alerts) : nat :=
  length (List.filter unread (map_to_list (alertsRepository state)).*2).

(** The payload of [relationship.discovered], as the handler reads
    it. *)
Record RelationshipDiscoveredPayload := {
  payloadRelationshipId : string;
  payloadEventType : string;
  payloadMarketAsset : string;
  payloadPValue : Q;
  payloadHitRate : Q
}.

Section Handler.

(** The text of the alert and its [metadata] document are rendered
    from the payload with [toFixed] and the JSON encoder, which work on
    floating-point numbers; they are taken as given. *)
Variable renderMessage : RelationshipDiscoveredPayload → string.
Variable renderMetadata : RelationshipDiscoveredPayload → Json.

(** [payload.pValue < 0.01 && payload.hitRate > 0.6] *)
Definition worthAnAlert (payload : RelationshipDiscoveredPayload) : bool :=
  bool_decide (payloadPValue payload < 1 # 100) &&
  bool_decide (6 # 10 < payloadHitRate payload).

Definition handleRelationshipDiscovered
    (payload : RelationshipDiscoveredPayload) (newId : string) (now : Date)
    (state : Alerts) : Alerts :=
  if worthAnAlert payload then
    (create
       {| AlertData.signalType := "relationship_discovered";
          AlertData.title := "New Significant Relationship Found";
          AlertData.message := renderMessage payload;
          AlertData.severity := Some HIGH;
          AlertData.confidence := Some (payloadHitRate payload);
          AlertData.eventId := None;
          AlertData.relationshipId := Some (payloadRelationshipId payload);
          AlertData.metadata := Some (renderMetadata payload);
          AlertData.aiAnalysis := None;
          AlertData.isRead := None;
          AlertData.isDismissed := None |} newId now state).2
  else state.

(** [@OnEvent(AppEvents.RELATIONSHIP_DISCOVERED)]: the handler runs for
    the events of that name and for no other. *)
Definition onEvent (e : AppEvents.AppEvent) (newId : string) (now : Date)
    (state : Alerts) : Alerts :=
  match e with
  | AppEvents.RELATIONSHIP_DISCOVERED relationshipId eventType marketAsset
      pValue hitRate =>
      handleRelationshipDiscovered
        {| payloadRelationshipId := relationshipId;
           payloadEventType := eventType;
           payloadMarketAsset := marketAsset;
           payloadPValue := pValue;
           payloadHitRate := hitRate |} newId now state
  | _ => state
  end.

End Handler.

End AlertsService.

(** ** MarketDataService: candles and latest price *)

Module MarketDataQueries.
Import MarketDataEntity MarketDataService.




(** The order [{ timestamp: 'DESC' }]. *)
Definition timestampDesc : relation MarketData :=
  λ a b, (timestamp b ≤ timestamp a)%Z.

Global Instance timestampDesc_dec : RelDecision timestampDesc.
Proof. intros a b. unfold timestampDesc. apply _. Defined.

(** [findOne({ where: { asset }, order: { timestamp: 'DESC' } })]: the
    first row in that order, null if there is none. *)
Definition getLatestPrice (repository : gmap string MarketData)
    (wanted : string) : option MarketData :=
  head (merge_sort timestampDesc
          (List.filter (λ md, bool_decide (asset md = wanted))
             (map_to_list repository).*2)).

End MarketDataQueries.

(** ** EventsService: listing, counting and batches *)

(** The [filters] argument of [EventsService.findAll] and [count]. *)
Module EventFilters.
Import EventEntity.

Record t := {
  source : option EventSource;
  eventType : option string;
  entity : option string;
  startDate : option Date;
  endDate : option Date;
  limit : option nat;
  offset : option nat
}.

End EventFilters.

(** [Partial<Event>] as [EventsService.createBatch] receives it; the
    columns without a default and without [nullable] are mandatory. *)
Module EventData.
Import EventEntity.

Record t := {
  timestamp : Date;
  source : EventSource;
  eventType : string;
  entity : option string;
  value : option Q;
  metadata : option Json;
  summary : option string;
  sentiment : option Q;
  embedding : option (list Q)
}.

End EventData.

Module EventsQueries.
Import EventEntity.

(** [if (x) query.andWhere('event.column = :x')] for a string: the
    condition is added for a string that is not empty, and a null column
    never equals it. *)
Definition stringFilter (wanted : option string) (column : option string)
    : bool :=
  match wanted with
  | Some w => if bool_decide (w = "") then true
              else bool_decide (column = Some w)
  | None => true
  end.

Definition sourceFilter (wanted : option EventSource) (e : Event) : bool :=
  match wanted with
  | Some w => bool_decide (source e = w)
  | None => true
  end.

(** The date conditions of [findAll]: [BETWEEN] when both bounds are
    given, else the one that is. *)
Definition datesOfFindAll (startDate endDate : option Date) (e : Event)
    : bool :=
  match startDate, endDate with
  | Some s, Some d =>
      bool_decide (s ≤ timestamp e)%Z && bool_decide (timestamp e ≤ d)%Z
  | Some s, None => bool_decide (s ≤ timestamp e)%Z
  | None, Some d => bool_decide (timestamp e ≤ d)%Z
  | None, None => true
  end.

(** The date conditions of [count]: one per bound that is given. *)
Definition datesOfCount (startDate endDate : option Date) (e : Event)
    : bool :=
  match startDate with
  | Some s => bool_decide (s ≤ timestamp e)%Z
  | None => true
  end &&
  match endDate with
  | Some d => bool_decide (timestamp e ≤ d)%Z
  | None => true
  end.

Definition listed (filters : EventFilters.t) (e : Event) : bool :=
  sourceFilter (EventFilters.source filters) e &&
  stringFilter (EventFilters.eventType filters) (Some (eventType e)) &&
  stringFilter (EventFilters.entity filters) (entity e) &&
  datesOfFindAll (EventFilters.startDate filters)
    (EventFilters.endDate filters) e.

Definition counted (filters : EventFilters.t) (e : Event) : bool :=
  sourceFilter (EventFilters.source filters) e &&
  stringFilter (EventFilters.eventType filters) (Some (eventType e)) &&
  stringFilter (EventFilters.entity filters) (entity e) &&
  datesOfCount (EventFilters.startDate filters)
    (EventFilters.endDate filters) e.

(** The order [event.timestamp DESC]. *)
Definition timestampDesc : relation Event :=
  λ a b, (timestamp b ≤ timestamp a)%Z.

Global Instance timestampDesc_dec : RelDecision timestampDesc.
Proof. intros a b. unfold timestampDesc. apply _. Defined.

(** [skip(offset).take(limit)] with the defaults [limit = 100] and
    [offset = 0], for a limit that is at least 1. *)
Definition findAll (repository : gmap string Event)
    (filters : EventFilters.t) : list Event :=
  take (default 100%nat (EventFilters.limit filters))
    (drop (default 0%nat (EventFilters.offset filters))
       (merge_sort timestampDesc
          (List.filter (listed filters) (map_to_list repository).*2))).

Definition count (repository : gmap string Event)
    (filters : EventFilters.t) : nat :=
  length (List.filter (counted filters) (map_to_list repository).*2).

(** The payload of [event.batch.created]; the source [None] stands for
    the string 'unknown'. *)
Inductive BatchCreated :=
| EVENT_BATCH_CREATED (count : nat) (source : option EventSource)
    (eventIds : list string).

(** The table of events and the [event.batch.created] events emitted,
    oldest first. *)
Record Store := {
  eventsRepository : gmap string Event;
  batches : list BatchCreated
}.

Definition newEvent (data : EventData.t) (newId : string) (now : Date)
    : Event :=
  {| id := newId;
     timestamp := EventData.timestamp data;
     source := EventData.source data;
     eventType := EventData.eventType data;
     entity := EventData.entity data;
     value := EventData.value data;
     metadata := EventData.metadata data;
     summary := EventData.summary data;
     sentiment := EventData.sentiment data;
     embedding := EventData.embedding data;
     ingestedAt := now |}.

(** [eventsRepository.save(entities)]: one insert per entity, in
    order. *)
Definition saveAll (saved : list Event) (repository : gmap string Event)
    : gmap string Event :=
  foldl (λ table e, <[id e := e]> table) repository saved.

(** [supply i] is the uuid the database assigns to element [i] of the
    batch, [now] the time of the insert. *)
Definition createBatch (events : list EventData.t) (supply : nat → string)
    (now : Date) (store : Store) : list Event * Store :=
  let saved := imap (λ i data, newEvent data (supply i) now) events in
  (saved,
   {| eventsRepository := saveAll saved (eventsRepository store);
      batches :=
        batches store
        ++ [EVENT_BATCH_CREATED (length saved) (source <$> head saved)
              (id <$> saved)] |}).

End EventsQueries.

(** ** IngestionScheduler (ingestion/ingestion.scheduler.ts) *)

Module IngestionScheduler.
Import EventEntity EventsQueries.

(** An element of the [rawEvents] argument of [saveEvents]. *)
Record RawEvent := {
  rawTimestamp : Date;
  rawEventType : string;
  rawEntity : option string;
  rawValue : option Q;
  rawMetadata : option Json
}.

Definition toEventData (source : EventSource) (raw : RawEvent) : EventData.t :=
  {| EventData.timestamp := rawTimestamp raw;
     EventData.source := source;
     EventData.eventType := rawEventType raw;
     EventData.entity := rawEntity raw;
     EventData.value := rawValue raw;
     EventData.metadata := rawMetadata raw;
     EventData.summary := None;
     EventData.sentiment := None;
     EventData.embedding := None |}.

Definition saveEvents (rawEvents : list RawEvent) (source : EventSource)
    (supply : nat → string) (now : Date) (store : Store) : Store :=
  if bool_decide (length rawEvents = 0%nat) then store
  else (createBatch (toEventData source <$> rawEvents) supply now store).2.

End IngestionScheduler.

(** ** FredService (src/ingestion/fred.service.ts) *)

(** An element of [response.observations]. *)
Module FredObservation.

Record t := {
  date : string;
  value : string
}.

End FredObservation.

Module FredService.
Import BaseIngestionService.

(** The JSON document of a series request; [observations] may be
    missing. *)
Record FredResponse := {
  observations : option (list FredObservation.t)
}.

(** An element of [trackedSeries]. *)
Record TrackedSeries := {
  seriesId : string;
  seriesName : string;
  seriesEventType : string
}.

Definition trackedSeries : list TrackedSeries :=
  [ {| seriesId := "FEDFUNDS"; seriesName := "Federal Funds Rate";
       seriesEventType := "fed_rate" |};
    {| seriesId := "UNRATE"; seriesName := "Unemployment Rate";
       seriesEventType := "unemployment" |};
    {| seriesId := "CPIAUCSL"; seriesName := "CPI";
       seriesEventType := "cpi" |};
    {| seriesId := "GDP"; seriesName := "GDP"; seriesEventType := "gdp" |};
    {| seriesId := "T10Y2Y"; seriesName := "10Y-2Y Spread";
       seriesEventType := "yield_curve" |};
    {| seriesId := "VIXCLS"; seriesName := "VIX"; seriesEventType := "vix" |};
    {| seriesId := "DCOILWTICO"; seriesName := "WTI Crude Oil";
       seriesEventType := "oil_price" |};
    {| seriesId := "DGS10"; seriesName := "10-Year Treasury";
       seriesEventType := "treasury_10y" |};
    {| seriesId := "BAMLH0A0HYM2"; seriesName := "High Yield Spread";
       seriesEventType := "credit_spread" |};
    {| seriesId := "MORTGAGE30US"; seriesName := "30-Year Mortgage";
       seriesEventType := "mortgage_rate" |} ].

Section Fetch.

(** [parseFloat] and [new Date] read text; they are taken as given,
    with whatever types of numbers and instants they produce.  [http id
    i] is what request number [i] (from 0) for the observations of
    series [id] settles to: the parsed document, or the error thrown
    for a response that is not ok. *)
Context {number instant E : Type}.
Variable parseFloat : string → number.
Variable newDate : string → instant.
Variable http : string → nat → Settled FredResponse E.

(** The [RawEvent] built for an observation; [metadata] is the object
    [{ seriesId, rawValue }]. *)
Record RawEvent := {
  timestamp : instant;
  eventType : string;
  entity : string;
  value : number;
  metadataSeriesId : string;
  metadataRawValue : string
}.

Definition toEvent (series wantedType : string) (obs : FredObservation.t)
    : RawEvent :=
  {| timestamp := newDate (FredObservation.date obs);
     eventType := wantedType;
     entity := series;
     value := parseFloat (FredObservation.value obs);
     metadataSeriesId := series;
     metadataRawValue := FredObservation.value obs |}.

(** [obs.value !== '.'] *)
Definition reported (obs : FredObservation.t) : bool :=
  negb (bool_decide (FredObservation.value obs = ".")).

(** What [fetchSeries] makes of the document. *)
Definition toEvents (series wantedType : string) (response : FredResponse)
    : list RawEvent :=
  toEvent series wantedType
  <$> List.filter reported (default [] (observations response)).

(** [fetchSeries]: the events, or what [fetchWithRetry] throws; and
    the steps of the run. *)
Definition fetchSeries (series wantedType : string)
    : Settled (list RawEvent) (Thrown E) * list (Step E) :=
  let '(result, steps) := fetchWithRetry_default (http series) in
  (match result with
   | Resolved response => Resolved (toEvents series wantedType response)
   | Rejected thrown => Rejected thrown
   end, steps).

(** The [try] block of the loop in [fetch] for one series: its events,
    none when [fetchSeries] throws. *)
Definition seriesEvents (series : TrackedSeries) : list RawEvent :=
  match (fetchSeries (seriesId series) (seriesEventType series)).1 with
  | Resolved events => events
  | Rejected _ => []
  end.

(** [fetch]: the events and the steps of all the runs; [apiKey] is the
    configured key, the empty string when there is none. *)
Definition fetch (apiKey : string) : list RawEvent * list (Step E) :=
  if bool_decide (apiKey = "") then ([], [])
  else
    foldl
      (λ '(events, steps) series,
         (events ++ seriesEvents series,
          steps
          ++ (fetchSeries (seriesId series) (seriesEventType series)).2))
      ([], []) trackedSeries.

End Fetch.

End FredService.

(** ** Sample data *)

Module Fixtures.
Import HypothesisEntity.

(** A hypothesis as [generateCommonHypotheses] creates them, with the
    given key, status and creation time and no result yet. *)
Definition vixHypothesis (key : string) (s : HypothesisStatus)
    (created : Date) : HypothesisRow :=
  {| id := key;
     hypothesis := "VIX spikes above 25 predict increased equity volatility";
     nullHypothesis :=
       "VIX level has no predictive value for future volatility";
     eventType := "vix_spike";
     marketAsset := "SPY";
     testType := GRANGER_CAUSALITY;
     lookbackDays := 365;
     status := s;
     pValue := None;
     hitRate := None;
     edge := None;
     sampleSize := None;
     testResults := None;
     errorMessage := None;
     aiGenerated := false;
     aiConfidence := None;
     createdAt := created;
     testedAt := created |}.

(** One hypothesis, waiting in the queue. *)
Definition onePending : App :=
  {| hypothesesRepository := {[ "h1" := vixHypothesis "h1" PENDING 1 ]};
     relationshipsRepository := ∅;
     emitted := [] |}.

(** One hypothesis whose evaluation is in flight. *)
Definition oneRunning : App :=
  {| hypothesesRepository := {[ "h1" := vixHypothesis "h1" RUNNING 1 ]};
     relationshipsRepository := ∅;
     emitted := [] |}.

(** Results that no correction can make significant, and results that
    every correction keeps significant. *)
Definition weakResults : HypothesesService.Results.t :=
  {| HypothesesService.Results.pValue := 9 # 10;
     HypothesesService.Results.hitRate := 1 # 2;
     HypothesesService.Results.edge := 0;
     HypothesesService.Results.sampleSize := 40;
     HypothesesService.Results.testResults := None |}.

Definition strongResults : HypothesesService.Results.t :=
  {| HypothesesService.Results.pValue := 0;
     HypothesesService.Results.hitRate := 9 # 10;
     HypothesesService.Results.edge := 230;
     HypothesesService.Results.sampleSize := 40;
     HypothesesService.Results.testResults := Some "{}" |}.

Definition weakRelationship : RelationshipData.t :=
  {| RelationshipData.eventType := "vix_spike";
     RelationshipData.marketAsset := "SPY";
     RelationshipData.hitRate := 1 # 2;
     RelationshipData.edge := 0;
     RelationshipData.pValue := 9 # 10;
     RelationshipData.sampleSize := 40;
     RelationshipData.description := None;
     RelationshipData.metadata := None;
     RelationshipData.isSignificant := Some false |}.

(** The raw result of scenario C of the specification. *)
Definition scenarioCResults : HypothesesService.Results.t :=
  {| HypothesesService.Results.pValue := 1 # 1000;
     HypothesesService.Results.hitRate := 7 # 10;
     HypothesesService.Results.edge := 120;
     HypothesesService.Results.sampleSize := 60;
     HypothesesService.Results.testResults := None |}.

(** Two pending hypotheses created at times 9 and 3, and one in
    flight. *)
Definition threeHypotheses : App :=
  {| hypothesesRepository :=
       <["h1" := vixHypothesis "h1" PENDING 9]>
         (<["h2" := vixHypothesis "h2" RUNNING 1]>
            (<["h3" := vixHypothesis "h3" PENDING 3]> ∅));
     relationshipsRepository := ∅;
     emitted := [] |}.

(** Closing prices 100, 110, 0 and 50 on four consecutive days. *)
Definition fourPrices : list MarketDataService.PricePoint :=
  [ {| MarketDataService.pointTimestamp := 1;
       MarketDataService.pointPrice := 100 |};
    {| MarketDataService.pointTimestamp := 2;
       MarketDataService.pointPrice := 110 |};
    {| MarketDataService.pointTimestamp := 3;
       MarketDataService.pointPrice := 0 |};
    {| MarketDataService.pointTimestamp := 4;
       MarketDataService.pointPrice := 50 |} ].

(** A FRED observation whose value is zero. *)
Definition flatObservation : EventEntity.Event :=
  {| EventEntity.id := "e1";
     EventEntity.timestamp := 5;
     EventEntity.source := EventEntity.FRED;
     EventEntity.eventType := "economic_release";
     EventEntity.entity := Some "DFF";
     EventEntity.value := Some 0;
     EventEntity.metadata := None;
     EventEntity.summary := None;
     EventEntity.sentiment := None;
     EventEntity.embedding := None;
     EventEntity.ingestedAt := 6 |}.

Definition flatObservationOnly : gmap string EventEntity.Event :=
  {[ "e1" := flatObservation ]}.

End Fixtures.

(** ** Properties of the corrector *)

Module CorrectorFacts.
Import Corrector.

Lemma population_pos (n : nat) : (1 <= n)%nat -> 1 <= population n.
Proof.
  intros Hn. unfold population. change 1 with (inject_Z 1).
  rewrite <- Zle_Qle. lia.
Qed.

Lemma population_mono (n1 n2 : nat) :
  (n1 <= n2)%nat -> population n1 <= population n2.
Proof.
  intros Hn. unfold population. rewrite <- Zle_Qle. lia.
Qed.

Lemma isSignificant_iff (pValue : Q) (n : nat) (alpha : Q) :
  isSignificant (correct pValue n alpha) = true <->
  adjustedPValue (correct pValue n alpha) < alpha.
Proof.
  unfold correct; simpl.
  destruct (Qlt_le_dec _ alpha) as [Hlt | Hge]; split; intros H;
    try done.
  exfalso. apply (Qlt_irrefl alpha). eapply Qle_lt_trans; eauto.
Qed.

(** Scenario C of the specification: population of 100, raw p-value
    0.001; the adjusted p-value is 0.1 and the verdict is not
    significant at the default threshold. *)
Example scenario_C :
  adjustedPValue (correct_default (1 # 1000) 100) == 1 # 10 /\
  isSignificant (correct_default (1 # 1000) 100) = false.
Proof. split; reflexivity. Qed.

(** C1. For a p-value in [0,1] the corrector returns
    [min(1, pValue * populationSize)], flags significance exactly when
    that adjusted value is below the family-wise threshold (0.05 by
    default), never lowers the p-value of a population that counts the
    hypothesis under evaluation, and saturates at 1 as soon as
    [pValue * populationSize >= 1]. *)
Theorem correct_bonferroni (pValue : Q) (populationSize : nat) (alpha : Q) :
  0 <= pValue <= 1 ->
  let c := correct pValue populationSize alpha in
  adjustedPValue c = Qmin 1 (pValue * population populationSize) /\
  (isSignificant c = true <-> adjustedPValue c < alpha) /\
  correct_default pValue populationSize = correct pValue populationSize (5 # 100) /\
  ((1 <= populationSize)%nat -> pValue <= adjustedPValue c) /\
  (1 <= pValue * population populationSize -> adjustedPValue c == 1).
Proof.
  intros [Hp0 Hp1] c. subst c.
  split; [reflexivity |].
  split; [apply isSignificant_iff |].
  split; [reflexivity |].
  split.
  - intros Hn. simpl. apply Q.min_glb; [assumption |].
    pose proof (population_pos _ Hn) as HN. nra.
  - intros Hsat. simpl. apply Q.min_l. assumption.
Qed.

Lemma correct_bonferroni_witness :
  0 <= 1 # 1000 <= 1 /\
  (isSignificant (correct (1 # 1000) 100 (5 # 100)) = true <->
   adjustedPValue (correct (1 # 1000) 100 (5 # 100)) < 5 # 100) /\
  1 # 1000 <= adjustedPValue (correct (1 # 1000) 100 (5 # 100)).
Proof.
  assert (Hp : 0 <= 1 # 1000 <= 1) by (split; discriminate).
  destruct (correct_bonferroni (1 # 1000) 100 (5 # 100) Hp)
    as (_ & Hsig & _ & Hge & _).
  split; [exact Hp |]. split; [exact Hsig |].
  apply Hge. lia.
Defined.

(** C5. For a fixed p-value, a larger hypothesis population never
    yields a smaller adjusted p-value. *)
Theorem correct_monotone (pValue : Q) (n1 n2 : nat) (alpha1 alpha2 : Q) :
  0 <= pValue ->
  (n1 <= n2)%nat ->
  adjustedPValue (correct pValue n1 alpha1) <=
  adjustedPValue (correct pValue n2 alpha2).
Proof.
  intros Hp Hn. simpl.
  apply Q.min_le_compat_l.
  pose proof (population_mono _ _ Hn) as HN. nra.
Qed.

Lemma correct_monotone_witness :
  adjustedPValue (correct (1 # 1000) 10 (5 # 100)) <=
  adjustedPValue (correct (1 # 1000) 200 (5 # 100)).
Proof.
  apply (correct_monotone (1 # 1000) 10 200); [discriminate | lia].
Defined.

End CorrectorFacts.

(** ** Properties of HypothesesService *)

Module HypothesesFacts.
Import HypothesisEntity AppEvents HypothesesService.

Ltac run_service :=
  unfold queueForTesting, updateResults, markFailed, findPending, getStats,
    update, find, findOne, emit, mbind, mret, Service_bind, Service_ret;
  simpl.

Lemma update_lookup_eq (key : string) (patch : HypothesisPatch.t)
    (now : Date) (app : App) (h : HypothesisRow) :
  hypothesesRepository app !! key = Some h →
  hypothesesRepository (update key patch now app).2 !! key
  = Some (applyPatch patch now h).
Proof. intros Hk. run_service. by rewrite lookup_alter_eq, Hk. Qed.

Lemma update_lookup_ne (key other : string) (patch : HypothesisPatch.t)
    (now : Date) (app : App) :
  key ≠ other →
  hypothesesRepository (update key patch now app).2 !! other
  = hypothesesRepository app !! other.
Proof. intros Hne. run_service. by rewrite lookup_alter_ne. Qed.

Lemma update_dom (key : string) (patch : HypothesisPatch.t)
    (now : Date) (app : App) :
  dom (hypothesesRepository (update key patch now app).2)
  = dom (hypothesesRepository app).
Proof. run_service. apply dom_alter_L. Qed.

(** An update of a key that has no row changes nothing. *)
Lemma update_missing (key : string) (patch : HypothesisPatch.t)
    (now : Date) (app : App) :
  hypothesesRepository app !! key = None →
  hypothesesRepository (update key patch now app).2
  = hypothesesRepository app.
Proof.
  intros Hk. run_service. apply map_eq. intros k.
  rewrite lookup_alter. case_decide; subst; by rewrite ?Hk.
Qed.

(** C6. [markFailed] on a stored hypothesis sets its status to Failed,
    stores the given message unchanged as [errorMessage], returns the
    updated row and emits a [hypothesis.tested] event with status
    [failed]; the other rows are left alone. *)
Theorem markFailed_records_message (app : App) (key message : string)
    (now : Date) (h : HypothesisRow) :
  hypothesesRepository app !! key = Some h →
  ∃ h',
    (markFailed key message now app).1 = Some h' ∧
    hypothesesRepository (markFailed key message now app).2 !! key = Some h' ∧
    status h' = FAILED ∧
    errorMessage h' = Some message ∧
    testedAt h' = now ∧
    emitted (markFailed key message now app).2
    = emitted app ++ [HYPOTHESIS_TESTED key failed None None] ∧
    ∀ other, other ≠ key →
      hypothesesRepository (markFailed key message now app).2 !! other
      = hypothesesRepository app !! other.
Proof.
  intros Hk. eexists. run_service.
  rewrite lookup_alter_eq, Hk. simpl.
  repeat split; try reflexivity.
  intros other Hne. by rewrite lookup_alter_ne.
Qed.

Lemma markFailed_records_message_witness :
  ∃ h',
    (markFailed "h1" "singular matrix in Granger fit" 7 Fixtures.oneRunning).1
    = Some h' ∧
    status h' = FAILED ∧
    errorMessage h' = Some "singular matrix in Granger fit".
Proof.
  destruct (markFailed_records_message Fixtures.oneRunning "h1"
              "singular matrix in Granger fit" 7
              (Fixtures.vixHypothesis "h1" RUNNING 1))
    as (h' & Hret & _ & Hst & Hmsg & _).
  - reflexivity.
  - exists h'. split; [exact Hret |]. split; [exact Hst | exact Hmsg].
Defined.

(** *** Queueing *)

Lemma queueForTesting_missing (app : App) (key : string) (now : Date) :
  hypothesesRepository app !! key = None →
  queueForTesting key now app = (None, app).
Proof. intros Hk. run_service. by rewrite Hk. Qed.

Lemma queueForTesting_stored (app : App) (key : string) (now : Date)
    (h : HypothesisRow) :
  hypothesesRepository app !! key = Some h →
  ∃ h',
    (queueForTesting key now app).1 = Some h' ∧
    hypothesesRepository (queueForTesting key now app).2 !! key = Some h' ∧
    status h' = RUNNING ∧
    requestFor key h' = requestFor key h ∧
    emitted (queueForTesting key now app).2
    = emitted app ++ [requestFor key h].
Proof.
  intros Hk. eexists. run_service. rewrite Hk. simpl.
  rewrite lookup_alter_eq, Hk. simpl. by repeat split.
Qed.

(** C3, as stated, fails: a hypothesis whose evaluation is already
    in flight (status Running, one request emitted) is queued a second
    time, the call is not refused and a second analysis request for the
    same id goes out. *)
Lemma queueForTesting_running_starts_second_run :
  let first := queueForTesting "h1" 5 Fixtures.onePending in
  let second := queueForTesting "h1" 6 first.2 in
  status <$> first.1 = Some RUNNING ∧
  emitted first.2
  = [ANALYSIS_REQUESTED "h1" "vix_spike" "SPY" GRANGER_CAUSALITY] ∧
  status <$> second.1 = Some RUNNING ∧
  emitted second.2
  = [ANALYSIS_REQUESTED "h1" "vix_spike" "SPY" GRANGER_CAUSALITY;
     ANALYSIS_REQUESTED "h1" "vix_spike" "SPY" GRANGER_CAUSALITY].
Proof. vm_compute. done. Qed.

(** C3, amended. [queueForTesting] looks at no status: for a stored
    hypothesis in any status (Running included) every call sets the
    status to Running, returns the row and emits one analysis request
    for that id, so two calls in a row emit two requests; for an id
    with no row it returns null and changes nothing. *)
Theorem queueForTesting_unguarded (app : App) (key : string)
    (now later : Date) :
  (∀ h, hypothesesRepository app !! key = Some h →
    let first := queueForTesting key now app in
    let second := queueForTesting key later first.2 in
    status <$> first.1 = Some RUNNING ∧
    status <$> hypothesesRepository first.2 !! key = Some RUNNING ∧
    emitted first.2 = emitted app ++ [requestFor key h] ∧
    status <$> second.1 = Some RUNNING ∧
    emitted second.2
    = emitted app ++ [requestFor key h; requestFor key h]) ∧
  (hypothesesRepository app !! key = None →
    queueForTesting key now app = (None, app)).
Proof.
  split; [| apply queueForTesting_missing].
  intros h Hk first second.
  destruct (queueForTesting_stored app key now h Hk)
    as (h1 & Hret1 & Hrow1 & Hst1 & Hreq1 & Hlog1).
  destruct (queueForTesting_stored first.2 key later h1 Hrow1)
    as (h2 & Hret2 & _ & Hst2 & _ & Hlog2).
  subst first second. rewrite Hret1, Hrow1, Hret2, Hlog2, Hlog1, Hreq1.
  simpl. rewrite Hst1, Hst2, <- app_assoc. done.
Qed.

Lemma queueForTesting_unguarded_witness :
  let first := queueForTesting "h1" 5 Fixtures.oneRunning in
  status <$> first.1 = Some RUNNING ∧
  emitted first.2
  = emitted Fixtures.oneRunning
    ++ [requestFor "h1" (Fixtures.vixHypothesis "h1" RUNNING 1)].
Proof.
  destruct (queueForTesting_unguarded Fixtures.oneRunning "h1" 5 6)
    as [Hstored _].
  destruct (Hstored (Fixtures.vixHypothesis "h1" RUNNING 1))
    as (Hst & _ & Hlog & _).
  - reflexivity.
  - split; [exact Hst | exact Hlog].
Defined.

(** *** Results *)

Lemma updateResults_stored (app : App) (key : string)
    (results : Results.t) (now : Date) (h : HypothesisRow) :
  hypothesesRepository app !! key = Some h →
  ∃ h',
    (updateResults key results now app).1 = Some h' ∧
    hypothesesRepository (updateResults key results now app).2 !! key
    = Some h' ∧
    status h' = COMPLETED ∧
    pValue h' = Some (Results.pValue results) ∧
    hitRate h' = Some (Results.hitRate results) ∧
    edge h' = Some (Results.edge results) ∧
    sampleSize h' = Some (Results.sampleSize results) ∧
    testResults h'
    = setNullable (Results.testResults results) (testResults h) ∧
    testedAt h' = now.
Proof.
  intros Hk. eexists. run_service.
  rewrite lookup_alter_eq, Hk. simpl. by repeat split.
Qed.

(** C4, as stated, fails: the hypothesis is evaluated (p-value 0 at
    time 10) and evaluated again (p-value 0.9 at time 20).  The table
    still holds a single row, and its result columns are those of the
    second run: the first result has been written over. *)
Lemma updateResults_rewrites_first_result :
  let first := updateResults "h1" Fixtures.strongResults 10 Fixtures.oneRunning in
  let again := updateResults "h1" Fixtures.weakResults 20 first.2 in
  (pValue <$> first.1 = Some (Some 0) ∧
   testedAt <$> first.1 = Some 10%Z) ∧
  size (hypothesesRepository again.2) = 1%nat ∧
  pValue <$> hypothesesRepository again.2 !! "h1" = Some (Some (9 # 10)) ∧
  hitRate <$> hypothesesRepository again.2 !! "h1" = Some (Some (1 # 2)) ∧
  sampleSize <$> hypothesesRepository again.2 !! "h1" = Some (Some 40%Z) ∧
  testedAt <$> hypothesesRepository again.2 !! "h1" = Some 20%Z.
Proof. vm_compute. done. Qed.

(** C4, amended. The result of an evaluation is stored in the columns
    of the hypothesis row itself: [updateResults] on a stored
    hypothesis writes the new [pValue], [hitRate], [edge],
    [sampleSize] and [testedAt] over the previous ones (and
    [testResults] when the new results carry some), sets the status
    to Completed, and adds no row; the other rows are unchanged. *)
Theorem updateResults_overwrites_in_place (app : App) (key : string)
    (results : Results.t) (now : Date) (h : HypothesisRow) :
  hypothesesRepository app !! key = Some h →
  let app' := (updateResults key results now app).2 in
  (∃ h',
    hypothesesRepository app' !! key = Some h' ∧
    status h' = COMPLETED ∧
    pValue h' = Some (Results.pValue results) ∧
    hitRate h' = Some (Results.hitRate results) ∧
    edge h' = Some (Results.edge results) ∧
    sampleSize h' = Some (Results.sampleSize results) ∧
    testResults h'
    = match Results.testResults results with
      | Some document => Some document
      | None => testResults h
      end ∧
    testedAt h' = now) ∧
  dom (hypothesesRepository app') = dom (hypothesesRepository app) ∧
  ∀ other, other ≠ key →
    hypothesesRepository app' !! other = hypothesesRepository app !! other.
Proof.
  intros Hk app'.
  destruct (updateResults_stored app key results now h Hk)
    as (h' & _ & Hrow & Hst & Hp & Hhit & Hedge & Hn & Hdoc & Hat).
  split; [exists h'; by repeat split |].
  subst app'. run_service. split.
  - apply dom_alter_L.
  - intros other Hne. by rewrite lookup_alter_ne.
Qed.

Lemma updateResults_overwrites_in_place_witness :
  let app := (updateResults "h1" Fixtures.strongResults 10 Fixtures.oneRunning).2 in
  let app' := (updateResults "h1" Fixtures.weakResults 20 app).2 in
  (∃ h',
    hypothesesRepository app' !! "h1" = Some h' ∧
    pValue h' = Some (9 # 10) ∧
    testResults h' = Some "{}" ∧
    testedAt h' = 20%Z) ∧
  dom (hypothesesRepository app') = dom (hypothesesRepository app).
Proof.
  intros app app'.
  destruct (updateResults_overwrites_in_place app "h1" Fixtures.weakResults 20
              (applyPatch
                 {| HypothesisPatch.status := Some COMPLETED;
                    HypothesisPatch.pValue := Some 0;
                    HypothesisPatch.hitRate := Some (9 # 10);
                    HypothesisPatch.edge := Some 230;
                    HypothesisPatch.sampleSize := Some 40%Z;
                    HypothesisPatch.testResults := Some "{}";
                    HypothesisPatch.errorMessage := None;
                    HypothesisPatch.testedAt := Some 10%Z |} 10
                 (Fixtures.vixHypothesis "h1" RUNNING 1)))
    as ((h' & Hrow & _ & Hp & _ & _ & _ & Hdoc & Hat) & Hdom & _).
  - reflexivity.
  - split; [| exact Hdom].
    exists h'. split; [exact Hrow |]. split; [exact Hp |].
    split; [exact Hdoc | exact Hat].
Defined.

(** *** The pending queue *)

Global Instance createdAtAsc_trans : Transitive createdAtAsc.
Proof. intros a b c. unfold createdAtAsc. lia. Qed.

Global Instance createdAtAsc_total : Total createdAtAsc.
Proof. intros a b. unfold createdAtAsc. lia. Qed.

(** In a sorted list an earlier position holds a smaller element. *)
Lemma StronglySorted_lookup {A} (R : relation A) (l : list A) :
  StronglySorted R l →
  ∀ i j a b, l !! i = Some a → l !! j = Some b → (i < j)%nat → R a b.
Proof.
  induction 1 as [| x l Hsorted IH Hall]; intros i j a b Hi Hj Hlt.
  - by rewrite lookup_nil in Hi.
  - destruct j as [| j]; [lia |].
    destruct i as [| i]; simpl in *.
    + injection Hi as <-.
      rewrite Forall_forall in Hall. apply Hall.
      by eapply list_elem_of_lookup_2.
    + eapply (IH i j); eauto. lia.
Qed.

Lemma stored_rows (app : App) (h : HypothesisRow) :
  h ∈ (find app).1 ↔ ∃ key, hypothesesRepository app !! key = Some h.
Proof.
  run_service. rewrite list_elem_of_fmap. split.
  - intros ([key h'] & -> & Hin). exists key.
    by apply elem_of_map_to_list.
  - intros [key Hk]. exists (key, h). split; [done |].
    by apply elem_of_map_to_list.
Qed.

(** C8. [findPending] returns exactly the stored hypotheses whose
    status is Pending (each as often as it is stored), in ascending
    order of [createdAt]; of two pending hypotheses the one created
    strictly earlier stands first.  The call changes nothing. *)
Theorem findPending_fifo (app : App) :
  let queue := (findPending app).1 in
  (findPending app).2 = app ∧
  queue ≡ₚ List.filter isPending (find app).1 ∧
  (∀ h, h ∈ queue ↔
     (∃ key, hypothesesRepository app !! key = Some h) ∧ status h = PENDING) ∧
  StronglySorted (λ a b, (createdAt a ≤ createdAt b)%Z) queue ∧
  (∀ i j a b, queue !! i = Some a → queue !! j = Some b →
     (createdAt a < createdAt b)%Z → (i < j)%nat).
Proof.
  intros queue.
  assert (Hperm : queue ≡ₚ List.filter isPending (find app).1)
    by apply merge_sort_Permutation.
  assert (Hsorted : StronglySorted createdAtAsc queue)
    by apply (StronglySorted_merge_sort createdAtAsc).
  split; [reflexivity |]. split; [exact Hperm |]. split; [| split].
  - intros h. rewrite Hperm, list_elem_of_In, filter_In,
      <- list_elem_of_In, stored_rows.
    unfold isPending. by rewrite bool_decide_eq_true.
  - exact Hsorted.
  - intros i j a b Hi Hj Hlt.
    destruct (decide (i < j)%nat) as [| Hge]; [done | exfalso].
    destruct (decide (i = j)) as [-> | Hne].
    + rewrite Hi in Hj. injection Hj as <-. lia.
    + assert (Hba : createdAtAsc b a)
        by (eapply (StronglySorted_lookup _ _ Hsorted j i); eauto; lia).
      unfold createdAtAsc in Hba. lia.
Qed.

(** The older of the two pending hypotheses is served first. *)
Example findPending_threeHypotheses :
  id <$> (findPending Fixtures.threeHypotheses).1 = ["h3"; "h1"].
Proof. reflexivity. Qed.

(** *** Statistics *)

(** [getStats] counts a completed hypothesis as significant on its raw
    p-value: the test is the corrector's at a population of one. *)
Lemma countsAsSignificant_raw (h : HypothesisRow) (p : Q) :
  status h = COMPLETED → pValue h = Some p → p <= 1 →
  countsAsSignificant h
  = Corrector.isSignificant (Corrector.correct_default p 1).
Proof.
  intros Hst Hp Hle.
  unfold countsAsSignificant, hasStatus, Corrector.correct_default,
    Corrector.correct, Corrector.defaultFamilyWiseAlpha.
  rewrite Hp, bool_decide_eq_true_2 by done. simpl.
  assert (Hmin : Qmin 1 (p * Corrector.population 1) == p).
  { unfold Corrector.population. simpl.
    rewrite Qmult_1_r. apply Q.min_r. exact Hle. }
  destruct (Qlt_le_dec p (5 # 100)) as [Hlt | Hge],
           (Qlt_le_dec (Qmin 1 (p * Corrector.population 1)) (5 # 100))
             as [Hlt' | Hge']; try reflexivity; exfalso.
  - rewrite Hmin in Hge'. lra.
  - rewrite Hmin in Hlt'. lra.
Qed.

(** Scenario C again: with a raw p-value of 0.001 the completed
    hypothesis counts as significant in [getStats], although in a
    population of 100 the corrector does not find it significant. *)
Example getStats_counts_raw_pValue :
  significant
    (getStats (updateResults "h1" Fixtures.scenarioCResults 10
                 Fixtures.oneRunning).2).1 = 1%nat ∧
  Corrector.isSignificant (Corrector.correct_default (1 # 1000) 100) = false.
Proof. split; reflexivity. Qed.

End HypothesesFacts.

(** ** Properties of RelationshipsService and of completion *)

Module RelationshipsFacts.
Import RelationshipEntity AppEvents.

(** A p-value of 0.9 is significant in no population that counts the
    hypothesis itself; a p-value of 0 is significant in every one. *)
Lemma weak_never_significant (n : nat) :
  (1 <= n)%nat →
  Corrector.isSignificant (Corrector.correct_default (9 # 10) n) = false.
Proof.
  intros Hn. apply not_true_is_false. unfold Corrector.correct_default.
  rewrite CorrectorFacts.isSignificant_iff. simpl.
  pose proof (CorrectorFacts.population_pos _ Hn) as HN.
  unfold Corrector.defaultFamilyWiseAlpha.
  destruct (Q.min_spec 1 ((9 # 10) * Corrector.population n))
    as [[_ ->] | [_ ->]]; lra.
Qed.

Lemma strong_always_significant (n : nat) :
  Corrector.isSignificant (Corrector.correct_default 0 n) = true.
Proof.
  unfold Corrector.correct_default.
  rewrite CorrectorFacts.isSignificant_iff. simpl.
  unfold Corrector.defaultFamilyWiseAlpha.
  rewrite Qmult_0_l. reflexivity.
Qed.

(** C2, as stated, fails in each of its parts.  A completed
    evaluation with a verdict that is not significant (p-value 0.9)
    still emits a completion signal; a completed evaluation with a
    significant verdict (p-value 0) creates no Relationship; and
    [RelationshipsService.create] stores a Relationship that is
    flagged not significant and announces it. *)
Lemma relationship_creation_not_tied_to_significance :
  let weak := HypothesesService.updateResults "h1" Fixtures.weakResults 10
                Fixtures.oneRunning in
  let strong := HypothesesService.updateResults "h1" Fixtures.strongResults 10
                  Fixtures.oneRunning in
  let created := RelationshipsService.create Fixtures.weakRelationship "r1" 10
                   Fixtures.oneRunning in
  (Corrector.isSignificant (Corrector.correct_default (9 # 10) 1) = false ∧
   emitted weak.2
   = [HYPOTHESIS_TESTED "h1" completed (Some (9 # 10)) (Some (1 # 2))]) ∧
  (Corrector.isSignificant (Corrector.correct_default 0 1) = true ∧
   relationshipsRepository strong.2 = ∅) ∧
  (isSignificant <$> relationshipsRepository created.2 !! "r1" = Some false ∧
   pValue <$> relationshipsRepository created.2 !! "r1" = Some (9 # 10) ∧
   emitted created.2
   = [RELATIONSHIP_DISCOVERED "r1" "vix_spike" "SPY" (9 # 10) (1 # 2)]).
Proof. vm_compute. done. Qed.

(** C2, amended. Completing an evaluation and creating a Relationship
    are two separate operations, and neither looks at significance.
    [updateResults] changes the hypothesis table only, never the
    relationship table, and emits one [hypothesis.tested] signal for
    every verdict.  [RelationshipsService.create] stores one
    Relationship, the row [newRelationship data newId now]: every
    column of the caller's summary (event type, market asset, p-value,
    hit rate, edge, sample size, description and metadata) as given,
    the caller's significance flag ([true] when absent) and the two
    dates of the insertion; it leaves the hypothesis table alone and
    emits one [relationship.discovered] signal, for every input. *)
Theorem completion_and_creation_unconditional (app : App) (key : string)
    (results : HypothesesService.Results.t)
    (data : RelationshipData.t) (newId : string) (now : Date) :
  let done_ := HypothesesService.updateResults key results now app in
  let created := RelationshipsService.create data newId now app in
  (relationshipsRepository done_.2 = relationshipsRepository app ∧
   emitted done_.2
   = emitted app ++
     [HYPOTHESIS_TESTED key completed
        (Some (HypothesesService.Results.pValue results))
        (Some (HypothesesService.Results.hitRate results))]) ∧
  (relationshipsRepository created.2 !! newId = Some created.1 ∧
   relationshipsRepository created.2
   = <[newId := created.1]> (relationshipsRepository app) ∧
   created.1 = RelationshipsService.newRelationship data newId now ∧
   id created.1 = newId ∧
   eventType created.1 = RelationshipData.eventType data ∧
   marketAsset created.1 = RelationshipData.marketAsset data ∧
   pValue created.1 = RelationshipData.pValue data ∧
   hitRate created.1 = RelationshipData.hitRate data ∧
   edge created.1 = RelationshipData.edge data ∧
   sampleSize created.1 = RelationshipData.sampleSize data ∧
   description created.1 = RelationshipData.description data ∧
   metadata created.1 = RelationshipData.metadata data ∧
   isSignificant created.1 = RelationshipsService.storedFlag data ∧
   isSignificant created.1
   = match RelationshipData.isSignificant data with
     | Some flag => flag
     | None => true
     end ∧
   discoveredAt created.1 = now ∧
   validatedAt created.1 = now ∧
   hypothesesRepository created.2 = hypothesesRepository app ∧
   emitted created.2
   = emitted app ++
     [RELATIONSHIP_DISCOVERED newId (RelationshipData.eventType data)
        (RelationshipData.marketAsset data) (RelationshipData.pValue data)
        (RelationshipData.hitRate data)]).
Proof.
  intros done_ created. split.
  - by split.
  - subst created.
    unfold RelationshipsService.create, RelationshipsService.save, emit,
      mbind, mret, Service_bind, Service_ret. simpl.
    rewrite lookup_insert_eq. by repeat split.
Qed.

End RelationshipsFacts.

(** ** Properties of fetchWithRetry *)

Module IngestionFacts.
Import BaseIngestionService.

Lemma sleeps_app {E} (xs ys : list (Step E)) :
  sleeps (xs ++ ys) = sleeps xs ++ sleeps ys.
Proof.
  induction xs as [| [i | a r e | ms] xs IH]; simpl; by rewrite ?IH.
Qed.

Lemma calls_app {E} (xs ys : list (Step E)) :
  calls (xs ++ ys) = (calls xs + calls ys)%nat.
Proof.
  induction xs as [| [i | a r e | ms] xs IH]; simpl; by rewrite ?IH.
Qed.

Lemma sleeps_retryTrace {E} (retries : nat) (delay : Z) (first : nat)
    (errors : list E) :
  sleeps (retryTrace retries delay first errors)
  = backoff delay first (length errors).
Proof.
  revert first. induction errors as [| e errors IH]; intros first; [done |].
  simpl. by rewrite IH.
Qed.

Lemma calls_retryTrace {E} (retries : nat) (delay : Z) (first : nat)
    (errors : list E) :
  calls (retryTrace retries delay first errors) = length errors.
Proof.
  revert first. induction errors as [| e errors IH]; intros first; [done |].
  simpl. by rewrite IH.
Qed.

Section Retry.
Context {T E : Type}.
Variable fn : nat → Settled T E.
Variable retries : nat.
Variable delay : Z.

Lemma loop_calls_le (fuel i : nat) :
  (calls (loop fn retries delay fuel i).2 ≤ fuel)%nat.
Proof.
  revert i. induction fuel as [| fuel IH]; intros i; simpl; [lia |].
  destruct (fn i) as [value | error]; simpl; [lia |].
  case_bool_decide; simpl; [| lia].
  specialize (IH (S i)).
  destruct (loop fn retries delay fuel (S i)) as [result steps].
  simpl in *. lia.
Qed.

(** The calls from [i] on fail with [errors], the next one succeeds. *)
Lemma loop_resolves (errors : list E) (v : T) (fuel i : nat) :
  (i + fuel = retries)%nat →
  (i + length errors < retries)%nat →
  (∀ j e, errors !! j = Some e → fn (i + j)%nat = Rejected e) →
  fn (i + length errors)%nat = Resolved v →
  loop fn retries delay fuel i
  = (Resolved v,
     retryTrace retries delay i errors ++ [Call (i + length errors)%nat]).
Proof.
  revert fuel i.
  induction errors as [| e errors IH]; intros fuel i Hfuel Hlen Hrej Hres;
    (destruct fuel as [| fuel]; [simpl in Hlen; lia |]); simpl in *.
  - rewrite Nat.add_0_r in *. by rewrite Hres.
  - pose proof (Hrej 0%nat e eq_refl) as He.
    rewrite Nat.add_0_r in He. rewrite He.
    rewrite bool_decide_eq_true_2 by lia.
    rewrite (IH fuel (S i)).
    + by replace (S i + length errors)%nat
        with (i + S (length errors))%nat by lia.
    + lia.
    + lia.
    + intros j e' Hj. rewrite <- (Hrej (S j) e' Hj). f_equal. lia.
    + rewrite <- Hres. f_equal. lia.
Qed.

(** The calls from [i] on fail with [errors], and the last of the
    [retries] calls fails with [e]. *)
Lemma loop_exhausts (errors : list E) (e : E) (fuel i : nat) :
  (i + fuel = retries)%nat →
  (S (i + length errors) = retries)%nat →
  (∀ j e', errors !! j = Some e' → fn (i + j)%nat = Rejected e') →
  fn (i + length errors)%nat = Rejected e →
  loop fn retries delay fuel i
  = (Rejected (Rethrown e),
     retryTrace retries delay i errors
     ++ [Call (i + length errors)%nat; Warn retries retries e]).
Proof.
  revert fuel i.
  induction errors as [| e0 errors IH]; intros fuel i Hfuel Hlen Hrej Hlast;
    (destruct fuel as [| fuel]; [simpl in Hlen; lia |]); simpl in *.
  - rewrite Nat.add_0_r in *. rewrite Hlast.
    rewrite bool_decide_eq_false_2 by lia.
    by replace (i + 1)%nat with retries by lia.
  - pose proof (Hrej 0%nat e0 eq_refl) as He.
    rewrite Nat.add_0_r in He. rewrite He.
    rewrite bool_decide_eq_true_2 by lia.
    rewrite (IH fuel (S i)).
    + by replace (S i + length errors)%nat
        with (i + S (length errors))%nat by lia.
    + lia.
    + lia.
    + intros j e' Hj. rewrite <- (Hrej (S j) e' Hj). f_equal. lia.
    + rewrite <- Hlast. f_equal. lia.
Qed.

End Retry.

(** C7. [fetchWithRetry] calls [fn] at most [retries] times (3 by
    default, with a base delay of 1000 ms).  If the first calls fail
    with [errors] and the next call succeeds within the [retries]
    attempts, its value is returned; each failed call [i] is followed by
    a warning and a sleep of [delay * 2^i] before call [i + 1].  If all
    [retries] calls fail, the same schedule is run up to the last call,
    after which no sleep follows and the error of the last call is
    thrown to the caller. *)
Theorem fetchWithRetry_backoff {T E : Type} (fn : nat → Settled T E)
    (retries : nat) (delay : Z) :
  let run := fetchWithRetry fn retries delay in
  (calls run.2 ≤ retries)%nat ∧
  (∀ errors v,
     (length errors < retries)%nat →
     (∀ i e, errors !! i = Some e → fn i = Rejected e) →
     fn (length errors) = Resolved v →
     run = (Resolved v,
            retryTrace retries delay 0 errors ++ [Call (length errors)]) ∧
     calls run.2 = S (length errors) ∧
     sleeps run.2
     = (λ i, (delay * 2 ^ Z.of_nat i)%Z) <$> seq 0 (length errors)) ∧
  (∀ errors e,
     S (length errors) = retries →
     (∀ i e', errors !! i = Some e' → fn i = Rejected e') →
     fn (length errors) = Rejected e →
     run = (Rejected (Rethrown e),
            retryTrace retries delay 0 errors
            ++ [Call (length errors); Warn retries retries e]) ∧
     calls run.2 = retries ∧
     sleeps run.2
     = (λ i, (delay * 2 ^ Z.of_nat i)%Z) <$> seq 0 (retries - 1)) ∧
  fetchWithRetry_default fn = fetchWithRetry fn 3 1000.
Proof.
  intros run. subst run. unfold fetchWithRetry.
  split; [apply loop_calls_le |]. split; [| split; [| reflexivity]].
  - intros errors v Hlen Hrej Hres.
    rewrite (loop_resolves fn retries delay errors v retries 0);
      [| lia | simpl; lia | done | done].
    simpl. rewrite calls_app, sleeps_app, calls_retryTrace, sleeps_retryTrace.
    simpl. rewrite app_nil_r, Nat.add_1_r. done.
  - intros errors e Hlen Hrej Hlast.
    rewrite (loop_exhausts fn retries delay errors e retries 0);
      [| lia | simpl; lia | done | done].
    simpl. rewrite calls_app, sleeps_app, calls_retryTrace, sleeps_retryTrace.
    simpl. rewrite app_nil_r, Nat.add_1_r.
    replace (retries - 1)%nat with (length errors) by lia. done.
Qed.

(** Two timeouts, then an answer; and three failures in a row, the
    error of call [i] being [i]. *)
Lemma fetchWithRetry_backoff_witness :
  let flaky := λ i : nat,
    if (i <? 2)%nat then Rejected "timeout" else Resolved 42%Z in
  let down := λ i : nat, (Rejected i : Settled Z nat) in
  (fetchWithRetry_default flaky
   = (Resolved 42%Z,
      [Call 0; Warn 1 3 "timeout"; Sleep 1000;
       Call 1; Warn 2 3 "timeout"; Sleep 2000;
       Call 2]%nat) ∧
   sleeps (fetchWithRetry_default flaky).2 = [1000; 2000]%Z) ∧
  (fetchWithRetry_default down
   = (Rejected (Rethrown 2%nat),
      [Call 0; Warn 1 3 0; Sleep 1000;
       Call 1; Warn 2 3 1; Sleep 2000;
       Call 2; Warn 3 3 2]%nat) ∧
   sleeps (fetchWithRetry_default down).2 = [1000; 2000]%Z).
Proof.
  intros flaky down. split.
  - destruct (fetchWithRetry_backoff flaky 3 1000) as (_ & Hfirst & _ & _).
    destruct (Hfirst ["timeout"; "timeout"] 42%Z) as (Hrun & _ & Hsleeps).
    + simpl. lia.
    + intros [| [| i]] e; simpl; intros [= <-]; reflexivity.
    + reflexivity.
    + split; [exact Hrun | exact Hsleeps].
  - destruct (fetchWithRetry_backoff down 3 1000) as (_ & _ & Hall & _).
    destruct (Hall [0; 1]%nat 2%nat) as (Hrun & _ & Hsleeps).
    + reflexivity.
    + intros [| [| i]] e; simpl; intros [= <-]; reflexivity.
    + reflexivity.
    + split; [exact Hrun | exact Hsleeps].
Defined.

End IngestionFacts.

(** ** Properties of getReturns *)

Module MarketDataFacts.
Import MarketDataService.

Lemma simpleReturn_Some (prev curr : PricePoint) (r : ReturnPoint) :
  simpleReturn (prev, curr) = Some r ↔
  0 < pointPrice prev ∧
  r = {| returnTimestamp := pointTimestamp curr;
         return_ := (pointPrice curr - pointPrice prev) / pointPrice prev |}.
Proof.
  unfold simpleReturn.
  destruct (Qlt_le_dec 0 (pointPrice prev)) as [Hpos | Hnon]; split.
  - intros [= <-]. done.
  - intros [_ ->]. done.
  - done.
  - intros [Hpos _]. exfalso. apply (Qlt_irrefl 0).
    eapply Qlt_le_trans; eauto.
Qed.

Lemma pushReturn_pair (prices : list PricePoint)
    (returns : list ReturnPoint) (i : nat) (prev curr : PricePoint) :
  prices !! i = Some prev → prices !! S i = Some curr →
  pushReturn prices returns (S i) = returns ++ contribution (prev, curr).
Proof.
  intros Hprev Hcurr. unfold pushReturn, contribution, simpleReturn.
  rewrite Nat.sub_succ, Nat.sub_0_r, Hprev, Hcurr.
  destruct (Qlt_le_dec 0 (pointPrice prev)); [done |].
  by rewrite app_nil_r.
Qed.

Lemma omap_simpleReturn_cons (pair : PricePoint * PricePoint)
    (pairs : list (PricePoint * PricePoint)) :
  omap simpleReturn (pair :: pairs)
  = contribution pair ++ omap simpleReturn pairs.
Proof.
  unfold contribution. cbn [omap list_omap].
  by destruct (simpleReturn pair).
Qed.

(** The loop, started at the index after [pre] with the array
    [returns] built so far, appends the returns of the pairs that are
    left. *)
Lemma foldl_pushReturn (rest pre : list PricePoint) (prev : PricePoint)
    (returns : list ReturnPoint) :
  foldl (pushReturn (pre ++ prev :: rest)) returns
    (seq (S (length pre)) (length rest))
  = returns ++ omap simpleReturn (zip (prev :: rest) rest).
Proof.
  revert pre prev returns.
  induction rest as [| curr rest IH]; intros pre prev returns.
  - simpl. by rewrite app_nil_r.
  - cbn [length seq foldl].
    assert (Hprev : (pre ++ prev :: curr :: rest) !! length pre = Some prev)
      by (by apply list_lookup_middle).
    assert (Hcurr : (pre ++ prev :: curr :: rest) !! S (length pre)
                    = Some curr).
    { rewrite (cons_middle prev), app_assoc.
      apply list_lookup_middle. rewrite length_app. simpl. lia. }
    rewrite (pushReturn_pair _ _ _ _ _ Hprev Hcurr).
    pose proof (IH (pre ++ [prev]) curr
                  (returns ++ contribution (prev, curr))) as Hrest.
    rewrite <- app_assoc, length_app in Hrest.
    change ([prev] ++ curr :: rest) with (prev :: curr :: rest) in Hrest.
    change (length [prev]) with 1%nat in Hrest.
    rewrite Nat.add_1_r in Hrest. rewrite Hrest.
    change (zip (prev :: curr :: rest) (curr :: rest))
      with ((prev, curr) :: zip (curr :: rest) rest).
    by rewrite omap_simpleReturn_cons, app_assoc.
Qed.

Lemma returnsOf_pairs (prices : list PricePoint) :
  returnsOf prices = returnsOfPairs prices.
Proof.
  unfold returnsOf, returnsOfPairs.
  destruct prices as [| first rest]; [done |].
  simpl. rewrite Nat.sub_0_r.
  apply (foldl_pushReturn rest [] first []).
Qed.

Lemma length_omap_le {A B} (f : A → option B) (l : list A) :
  (length (omap f l) ≤ length l)%nat.
Proof.
  unfold omap. induction l as [| x l IH]; simpl; [lia |].
  destruct (f x); simpl; lia.
Qed.

Lemma returnsOfPairs_length (prices : list PricePoint) :
  (length (returnsOfPairs prices) ≤ length prices - 1)%nat.
Proof.
  unfold returnsOfPairs. etrans; [apply length_omap_le |].
  rewrite length_zip. destruct prices; cbn [length tail]; lia.
Qed.

(** Prices 100, 110, 0, 50: two returns, +10% and -100%; the pair that
    starts at price 0 gives none. *)
Example returnsOf_fourPrices :
  returnTimestamp <$> returnsOf Fixtures.fourPrices = [2; 3]%Z ∧
  Forall2 Qeq (return_ <$> returnsOf Fixtures.fourPrices) [1 # 10; -1].
Proof. split; [reflexivity |]. repeat constructor. Qed.

Lemma consecutive_pairs {A} (l : list A) (a b : A) :
  (a, b) ∈ zip l (tail l) ↔ ∃ i, l !! i = Some a ∧ l !! S i = Some b.
Proof.
  rewrite list_elem_of_lookup.
  split; intros [i Hi]; exists i.
  - apply lookup_zip_Some in Hi. by rewrite lookup_tail in Hi.
  - apply lookup_zip_Some. by rewrite lookup_tail.
Qed.

(** C9. For every price series read for an asset and a date range,
    [getReturns] is the list, in series order, of the simple returns
    [(currentPrice - previousPrice) / previousPrice] of the pairs of
    consecutive prices whose earlier price is strictly positive, each
    carrying the later timestamp.  Hence every divisor is strictly
    positive, a pair whose earlier price is zero or negative
    contributes nothing, and there are at most [length - 1] returns
    (none for an empty series). *)
Theorem getReturns_positive_divisors
    (repository : gmap string MarketDataEntity.MarketData)
    (asset : string) (startDate endDate : Date) :
  let prices := getPriceTimeSeries repository asset startDate endDate in
  let returns := getReturns repository asset startDate endDate in
  returns = returnsOfPairs prices ∧
  (∀ r, r ∈ returns ↔
     ∃ i prev curr,
       prices !! i = Some prev ∧ prices !! S i = Some curr ∧
       0 < pointPrice prev ∧
       returnTimestamp r = pointTimestamp curr ∧
       return_ r = (pointPrice curr - pointPrice prev) / pointPrice prev) ∧
  (∀ i prev curr built,
     prices !! i = Some prev → prices !! S i = Some curr →
     pointPrice prev <= 0 →
     pushReturn prices built (S i) = built) ∧
  (length returns ≤ length prices - 1)%nat ∧
  (prices = [] → returns = []).
Proof.
  intros prices returns.
  assert (Hpairs : returns = returnsOfPairs prices) by apply returnsOf_pairs.
  split; [exact Hpairs |]. split; [| split; [| split]].
  - intros r. rewrite Hpairs. unfold returnsOfPairs.
    rewrite list_elem_of_omap. split.
    + intros ([prev curr] & Hin & Hr).
      apply consecutive_pairs in Hin as (i & Hi & HSi).
      apply simpleReturn_Some in Hr as [Hpos ->].
      exists i, prev, curr. by repeat split.
    + intros (i & prev & curr & Hi & HSi & Hpos & Hts & Hret).
      exists (prev, curr). split.
      * apply consecutive_pairs. by exists i.
      * apply simpleReturn_Some. split; [done |].
        destruct r as [ts ret]. simpl in *. by subst.
  - intros i prev curr built Hi HSi Hnon.
    rewrite (pushReturn_pair _ _ _ _ _ Hi HSi).
    unfold contribution, simpleReturn.
    destruct (Qlt_le_dec 0 (pointPrice prev)) as [Hpos |];
      [| by rewrite app_nil_r].
    exfalso. apply (Qlt_irrefl 0). eapply Qlt_le_trans; eauto.
  - rewrite Hpairs. apply returnsOfPairs_length.
  - intros Hnil. rewrite Hpairs, Hnil. done.
Qed.

End MarketDataFacts.

(** ** Properties of getEventTimeSeries *)

Module EventsFacts.
Import EventEntity EventsService.

Global Instance timestampAsc_trans : Transitive timestampAsc.
Proof. intros a b c. unfold timestampAsc. lia. Qed.

Global Instance timestampAsc_total : Total timestampAsc.
Proof. intros a b. unfold timestampAsc. lia. Qed.

Lemma StronglySorted_filter {A} (R : relation A) (f : A → bool)
    (l : list A) :
  StronglySorted R l → StronglySorted R (List.filter f l).
Proof.
  induction 1 as [| x l Hsorted IH Hall]; simpl; [constructor |].
  destruct (f x); [| done]. constructor; [done |].
  rewrite Forall_forall in *. intros y Hy. apply Hall.
  apply list_elem_of_In, filter_In in Hy as [Hy _].
  by apply list_elem_of_In.
Qed.

Lemma findBySourceAndType_elem (repository : gmap string Event)
    (wantedSource : EventSource) (wantedType : string) (e : Event) :
  e ∈ findBySourceAndType repository wantedSource wantedType ↔
  (∃ key, repository !! key = Some e) ∧
  source e = wantedSource ∧ eventType e = wantedType.
Proof.
  unfold findBySourceAndType.
  rewrite merge_sort_Permutation, list_elem_of_In, filter_In,
    <- list_elem_of_In, list_elem_of_fmap, andb_true_iff,
    !bool_decide_eq_true.
  split.
  - intros [([key e'] & -> & Hin) Hsel]. split; [| done].
    exists key. by apply elem_of_map_to_list.
  - intros [[key Hkey] Hsel]. split; [| done].
    exists (key, e). split; [done |]. by apply elem_of_map_to_list.
Qed.

(** Where the points of a series come from: the points are exactly the
    images of the stored events of the wanted source and type whose
    timestamp lies in the closed range; every point lies in that range
    and the points are in ascending order of timestamp. *)
Lemma getEventTimeSeries_range_and_order (repository : gmap string Event)
    (wantedSource : EventSource) (wantedType : string)
    (startDate endDate : Date) :
  let series :=
    getEventTimeSeries repository wantedSource wantedType startDate endDate in
  (∀ p, p ∈ series ↔
     ∃ e, (∃ key, repository !! key = Some e) ∧
          source e = wantedSource ∧ eventType e = wantedType ∧
          (startDate ≤ timestamp e ≤ endDate)%Z ∧
          p = toPoint e) ∧
  (∀ p, p ∈ series → (startDate ≤ pointTimestamp p ≤ endDate)%Z) ∧
  StronglySorted (λ p q, (pointTimestamp p ≤ pointTimestamp q)%Z) series.
Proof.
  intros series.
  assert (Helem : ∀ p, p ∈ series ↔
     ∃ e, (∃ key, repository !! key = Some e) ∧
          source e = wantedSource ∧ eventType e = wantedType ∧
          (startDate ≤ timestamp e ≤ endDate)%Z ∧
          p = toPoint e).
  { intros p. subst series. unfold getEventTimeSeries.
    rewrite list_elem_of_fmap. split.
    - intros (e & -> & Hin).
      apply list_elem_of_In, filter_In in Hin as [Hin Hrange].
      apply list_elem_of_In, findBySourceAndType_elem in Hin
        as (Hkey & Hsrc & Hty).
      unfold inRange in Hrange.
      rewrite andb_true_iff, !bool_decide_eq_true in Hrange.
      exists e. do 3 (split; [done |]). split; [lia | done].
    - intros (e & Hkey & Hsrc & Hty & Hrange & ->).
      exists e. split; [done |].
      apply list_elem_of_In, filter_In. split.
      + apply list_elem_of_In, findBySourceAndType_elem. by repeat split.
      + unfold inRange.
        by rewrite andb_true_iff, !bool_decide_eq_true. }
  split; [exact Helem |]. split.
  - intros p Hp. apply Helem in Hp as (e & _ & _ & _ & Hrange & ->).
    exact Hrange.
  - subst series. unfold getEventTimeSeries.
    apply (StronglySorted_fmap toPoint timestampAsc); [done |].
    apply StronglySorted_filter.
    apply (StronglySorted_merge_sort timestampAsc).
Qed.

(** C10: for every source, event type and pair of dates, every point
    returned by [getEventTimeSeries] has its timestamp within the
    closed range [startDate, endDate] and the points are in ascending
    order of timestamp; each point is that of a stored event of the
    source and type asked for, with the event's timestamp and entity,
    and its value is the numeric value of the event when that is
    present, zero included, and 1 when the event has no value; every
    such event in the range has its point. *)
Theorem getEventTimeSeries_range_order_values (repository : gmap string Event)
    (wantedSource : EventSource) (wantedType : string)
    (startDate endDate : Date) :
  let series :=
    getEventTimeSeries repository wantedSource wantedType startDate endDate in
  (∀ p, p ∈ series → (startDate ≤ pointTimestamp p ≤ endDate)%Z) ∧
  StronglySorted (λ p q, (pointTimestamp p ≤ pointTimestamp q)%Z) series ∧
  (∀ p, p ∈ series →
     ∃ e, (∃ key, repository !! key = Some e) ∧
          source e = wantedSource ∧ eventType e = wantedType ∧
          pointTimestamp p = timestamp e ∧
          pointEntity p = entity e ∧
          pointValue p = match value e with Some q => q | None => 1 end) ∧
  (∀ key e, repository !! key = Some e →
     source e = wantedSource → eventType e = wantedType →
     (startDate ≤ timestamp e ≤ endDate)%Z →
     {| pointTimestamp := timestamp e;
        pointValue := match value e with Some q => q | None => 1 end;
        pointEntity := entity e |} ∈ series).
Proof.
  intros series.
  destruct (getEventTimeSeries_range_and_order repository wantedSource
              wantedType startDate endDate) as (Helem & Hrange & Hsorted).
  fold series in Helem, Hrange, Hsorted.
  split; [exact Hrange |]. split; [exact Hsorted |]. split.
  - intros p Hp. apply Helem in Hp as (e & Hkey & Hsrc & Hty & _ & ->).
    exists e. by repeat split.
  - intros key e Hkey Hsrc Hty Hin. apply Helem.
    exists e. split; [by exists key |].
    split; [exact Hsrc |]. split; [exact Hty |]. split; [exact Hin |].
    reflexivity.
Qed.

(** An event stored with the numeric value 0 has a point with the
    value 0. *)
Example getEventTimeSeries_zero_value_kept :
  value Fixtures.flatObservation = Some 0 ∧
  getEventTimeSeries Fixtures.flatObservationOnly FRED "economic_release" 0 10
  = [ {| pointTimestamp := 5; pointValue := 0; pointEntity := Some "DFF" |} ].
Proof. split; reflexivity. Qed.

End EventsFacts.

(** ** Further properties of HypothesesService *)

Module HypothesesLifecycleFacts.
Import HypothesisEntity AppEvents HypothesesService.

Ltac run_service := HypothesesFacts.run_service.

Lemma status_cases (h : HypothesisRow) :
  ((if hasStatus PENDING h then 1 else 0)
   + (if hasStatus RUNNING h then 1 else 0)
   + (if hasStatus COMPLETED h then 1 else 0)
   + (if hasStatus FAILED h then 1 else 0) = 1)%nat.
Proof. unfold hasStatus. by destruct (status h). Qed.

Lemma length_filter_cons {A} (f : A → bool) (x : A) (l : list A) :
  length (List.filter f (x :: l))
  = ((if f x then 1 else 0) + length (List.filter f l))%nat.
Proof. simpl. by destruct (f x). Qed.

Lemma statuses_partition (all : list HypothesisRow) :
  length all
  = (length (List.filter (hasStatus PENDING) all)
     + length (List.filter (hasStatus RUNNING) all)
     + length (List.filter (hasStatus COMPLETED) all)
     + length (List.filter (hasStatus FAILED) all))%nat.
Proof.
  induction all as [| h all IH]; [done |].
  rewrite !length_filter_cons. cbn [length].
  pose proof (status_cases h). lia.
Qed.

Lemma significant_among_completed (all : list HypothesisRow) :
  (length (List.filter countsAsSignificant all)
   ≤ length (List.filter (hasStatus COMPLETED) all))%nat.
Proof.
  induction all as [| h all IH]; [done |].
  rewrite !length_filter_cons. unfold countsAsSignificant at 1.
  destruct (hasStatus COMPLETED h); simpl; [| lia].
  destruct (pValue h) as [p |]; [| lia].
  destruct (Qlt_le_dec p (5 # 100)); lia.
Qed.

(** [getStats] counts every stored hypothesis under exactly one of the
    four statuses: the total is the number of rows and the sum of the
    four counts; the hypotheses counted as significant are among the
    completed ones.  The call changes nothing. *)
Theorem getStats_partition (app : App) :
  let stats := (getStats app).1 in
  (getStats app).2 = app ∧
  total stats = size (hypothesesRepository app) ∧
  total stats
  = (pending stats + running stats + completed_ stats + failed_ stats)%nat ∧
  (significant stats ≤ completed_ stats)%nat.
Proof.
  run_service. split; [done |]. split; [| split].
  - by rewrite length_fmap, length_map_to_list.
  - apply statuses_partition.
  - apply significant_among_completed.
Qed.

(** For an id that has no row, [updateResults] and [markFailed] return
    null and leave both tables as they are, and all the same emit the
    [hypothesis.tested] event for that id. *)
Theorem results_for_missing_id (app : App) (key message : string)
    (results : Results.t) (now : Date) :
  hypothesesRepository app !! key = None →
  let done_ := updateResults key results now app in
  let failed_ := markFailed key message now app in
  (done_.1 = None ∧
   hypothesesRepository done_.2 = hypothesesRepository app ∧
   relationshipsRepository done_.2 = relationshipsRepository app ∧
   emitted done_.2
   = emitted app ++
     [HYPOTHESIS_TESTED key completed (Some (Results.pValue results))
        (Some (Results.hitRate results))]) ∧
  (failed_.1 = None ∧
   hypothesesRepository failed_.2 = hypothesesRepository app ∧
   relationshipsRepository failed_.2 = relationshipsRepository app ∧
   emitted failed_.2 = emitted app ++ [HYPOTHESIS_TESTED key failed None None]).
Proof.
  intros Hk done_ failed_. subst done_ failed_. run_service.
  assert (Hsame : ∀ f : HypothesisRow → HypothesisRow,
            alter f key (hypothesesRepository app) = hypothesesRepository app).
  { intros f. apply map_eq. intros k.
    rewrite lookup_alter. case_decide; subst; by rewrite ?Hk. }
  rewrite !Hsame, Hk. done.
Qed.

Lemma results_for_missing_id_witness :
  (updateResults "h9" Fixtures.weakResults 10 Fixtures.onePending).1 = None ∧
  emitted (markFailed "h9" "no data" 10 Fixtures.onePending).2
  = [HYPOTHESIS_TESTED "h9" failed None None].
Proof.
  destruct (results_for_missing_id Fixtures.onePending "h9" "no data"
              Fixtures.weakResults 10)
    as ((Hret & _) & (_ & _ & _ & Hlog)).
  - reflexivity.
  - split; [exact Hret | exact Hlog].
Defined.

(** No operation clears what an earlier run has left on the row, and
    the row after each sequence is known column by column.  After
    [markFailed] and then [updateResults] the hypothesis is Completed,
    carries the results and still carries the error message; after
    [updateResults] and then [markFailed] it is Failed, carries the
    message and still carries the results; in both cases [testedAt] is
    the time of the later call and [testResults] is the document of the
    results, or the one the row had when the results bring none.
    [queueForTesting] returns and stores the row it found with the
    status Running and [testedAt] the time of the call, every other
    column as it was. *)
Theorem earlier_outcome_survives (app : App) (key message : string)
    (results : Results.t) (now later : Date) (h : HypothesisRow) :
  hypothesesRepository app !! key = Some h →
  hypothesesRepository
    (updateResults key results later (markFailed key message now app).2).2
    !! key
  = Some {| id := id h;
            hypothesis := hypothesis h;
            nullHypothesis := nullHypothesis h;
            eventType := eventType h;
            marketAsset := marketAsset h;
            testType := testType h;
            lookbackDays := lookbackDays h;
            status := COMPLETED;
            pValue := Some (Results.pValue results);
            hitRate := Some (Results.hitRate results);
            edge := Some (Results.edge results);
            sampleSize := Some (Results.sampleSize results);
            testResults := 
              match Results.testResults results with
              | Some document => Some document
              | None => testResults h
              end;
            errorMessage := Some message;
            aiGenerated := aiGenerated h;
            aiConfidence := aiConfidence h;
            createdAt := createdAt h;
            testedAt := later |} ∧
  hypothesesRepository
    (markFailed key message later (updateResults key results now app).2).2
    !! key
  = Some {| id := id h;
            hypothesis := hypothesis h;
            nullHypothesis := nullHypothesis h;
            eventType := eventType h;
            marketAsset := marketAsset h;
            testType := testType h;
            lookbackDays := lookbackDays h;
            status := FAILED;
            pValue := Some (Results.pValue results);
            hitRate := Some (Results.hitRate results);
            edge := Some (Results.edge results);
            sampleSize := Some (Results.sampleSize results);
            testResults := 
              match Results.testResults results with
              | Some document => Some document
              | None => testResults h
              end;
            errorMessage := Some message;
            aiGenerated := aiGenerated h;
            aiConfidence := aiConfidence h;
            createdAt := createdAt h;
            testedAt := later |} ∧
  hypothesesRepository (queueForTesting key now app).2 !! key
  = Some {| id := id h;
            hypothesis := hypothesis h;
            nullHypothesis := nullHypothesis h;
            eventType := eventType h;
            marketAsset := marketAsset h;
            testType := testType h;
            lookbackDays := lookbackDays h;
            status := RUNNING;
            pValue := pValue h;
            hitRate := hitRate h;
            edge := edge h;
            sampleSize := sampleSize h;
            testResults := testResults h;
            errorMessage := errorMessage h;
            aiGenerated := aiGenerated h;
            aiConfidence := aiConfidence h;
            createdAt := createdAt h;
            testedAt := now |} ∧
  (queueForTesting key now app).1
  = hypothesesRepository (queueForTesting key now app).2 !! key.
Proof.
  intros Hk. split; [| split; [| split]]; run_service.
  - rewrite !lookup_alter_eq, Hk. simpl.
    by destruct (Results.testResults results).
  - rewrite !lookup_alter_eq, Hk. simpl.
    by destruct (Results.testResults results).
  - rewrite Hk. simpl. rewrite lookup_alter_eq, Hk. simpl. done.
  - rewrite Hk. simpl. done.
Qed.

Lemma earlier_outcome_survives_witness :
  status <$>
    hypothesesRepository
      (updateResults "h1" Fixtures.strongResults 9
         (markFailed "h1" "timeout" 8 Fixtures.oneRunning).2).2 !! "h1"
  = Some COMPLETED ∧
  errorMessage <$>
    hypothesesRepository
      (updateResults "h1" Fixtures.strongResults 9
         (markFailed "h1" "timeout" 8 Fixtures.oneRunning).2).2 !! "h1"
  = Some (Some "timeout").
Proof.
  destruct (earlier_outcome_survives Fixtures.oneRunning "h1" "timeout"
              Fixtures.strongResults 8 9
              (Fixtures.vixHypothesis "h1" RUNNING 1))
    as (Hfirst & _).
  - reflexivity.
  - rewrite Hfirst. split; reflexivity.
Defined.

(** No service method leads back to Pending: a row that is Pending
    after [queueForTesting], [updateResults] or [markFailed] was the
    same Pending row before the call. *)
Theorem never_back_to_pending (app : App) (key message : string)
    (results : Results.t) (now : Date) (other : string) (h' : HypothesisRow) :
  status h' = PENDING →
  (hypothesesRepository (queueForTesting key now app).2 !! other = Some h' →
   hypothesesRepository app !! other = Some h') ∧
  (hypothesesRepository (updateResults key results now app).2 !! other
   = Some h' →
   hypothesesRepository app !! other = Some h') ∧
  (hypothesesRepository (markFailed key message now app).2 !! other = Some h' →
   hypothesesRepository app !! other = Some h').
Proof.
  intros Hpending.
  assert (Halter : ∀ patch,
    HypothesisPatch.status patch ≠ None →
    HypothesisPatch.status patch ≠ Some PENDING →
    hypothesesRepository (update key patch now app).2 !! other = Some h' →
    hypothesesRepository app !! other = Some h').
  { intros patch Hset Hnot. run_service. rewrite lookup_alter.
    case_decide as Heq; [| done]. subst other.
    destruct (hypothesesRepository app !! key) as [h |]; [| done].
    simpl. intros [= <-]. simpl in Hpending.
    destruct (HypothesisPatch.status patch); simpl in *; congruence. }
  split; [| split].
  - unfold queueForTesting, findOne, mbind, mret, Service_bind, Service_ret.
    simpl. destruct (hypothesesRepository app !! key) eqn:Hk; [| done].
    apply Halter; done.
  - apply Halter; done.
  - apply Halter; done.
Qed.

Lemma never_back_to_pending_witness :
  hypothesesRepository
    (markFailed "h1" "timeout" 8 Fixtures.threeHypotheses).2 !! "h3"
  = Some (Fixtures.vixHypothesis "h3" PENDING 3) ∧
  hypothesesRepository Fixtures.threeHypotheses !! "h3"
  = Some (Fixtures.vixHypothesis "h3" PENDING 3).
Proof.
  destruct (never_back_to_pending Fixtures.threeHypotheses "h1" "timeout"
              Fixtures.weakResults 8 "h3"
              (Fixtures.vixHypothesis "h3" PENDING 3))
    as (_ & _ & Hfailed).
  - reflexivity.
  - split; [reflexivity |]. apply Hfailed. reflexivity.
Defined.

End HypothesesLifecycleFacts.

(** ** Further properties of fetchWithRetry *)

Module RetryOutcomeFacts.
Import BaseIngestionService.

Section Retry.
Context {T E : Type}.
Variable fn : nat → Settled T E.
Variable retries : nat.
Variable delay : Z.

(** What the outcome of the loop says about the calls made. *)
Lemma loop_outcome (fuel i : nat) :
  (i + fuel = retries)%nat →
  let run := loop fn retries delay fuel i in
  (∀ v, run.1 = Resolved v →
     ∃ k, (i ≤ k)%nat ∧ (k < retries)%nat ∧ fn k = Resolved v ∧
          (∀ j, (i ≤ j)%nat → (j < k)%nat → ∃ e, fn j = Rejected e) ∧
          calls run.2 = S (k - i)) ∧
  (∀ e, run.1 = Rejected (Rethrown e) →
     (0 < fuel)%nat ∧ fn (retries - 1)%nat = Rejected e ∧
     (∀ j, (i ≤ j)%nat → (j < retries)%nat → ∃ e', fn j = Rejected e') ∧
     calls run.2 = fuel) ∧
  (run.1 = Rejected ShouldNotReachHere ↔ fuel = 0%nat).
Proof.
  revert i. induction fuel as [| fuel IH]; intros i Hfuel; simpl.
  - split; [done |]. split; done.
  - destruct (fn i) as [value | error] eqn:Hi; simpl.
    + split; [| split; [done | split; [done | lia]]].
      intros v [= <-]. exists i. rewrite Nat.sub_diag.
      repeat split; try done; try lia.
    + case_bool_decide as Hmore; simpl.
      * destruct (IH (S i)) as (Hres & Hrej & Hguard); [lia |].
        destruct (loop fn retries delay fuel (S i)) as [result steps].
        simpl in *. split; [| split].
        -- intros v Hv. destruct (Hres v Hv) as (k & ? & ? & ? & Hbefore & Hc).
           exists k. repeat split; try done; try lia.
           intros j ? ?. destruct (decide (j = i)) as [-> | ?]; [by eexists |].
           apply Hbefore; lia.
        -- intros e He. destruct (Hrej e He) as (? & ? & Hall & Hc).
           repeat split; try done; try lia.
           intros j ? ?. destruct (decide (j = i)) as [-> | ?]; [by eexists |].
           apply Hall; lia.
        -- rewrite Hguard. lia.
      * split; [done |]. split; [| split; [done | lia]].
        intros e [= <-].
        assert (fuel = 0%nat) as -> by lia.
        replace (retries - 1)%nat with i by lia.
        repeat split; try done; try lia.
        intros j ? ?. replace j with i by lia. by eexists.
Qed.

(** Every call but the last is followed by its sleep. *)
Lemma loop_sleeps (fuel i : nat) :
  (i + fuel = retries)%nat →
  sleeps (loop fn retries delay fuel i).2
  = backoff delay i (calls (loop fn retries delay fuel i).2 - 1) ∧
  ((0 < fuel)%nat → (0 < calls (loop fn retries delay fuel i).2)%nat).
Proof.
  revert i. induction fuel as [| fuel IH]; intros i Hfuel; simpl.
  - split; [done | lia].
  - destruct (fn i) as [value | error]; simpl; [split; [done | lia] |].
    case_bool_decide as Hmore; simpl; [| split; [done | lia]].
    destruct (IH (S i)) as [Hs Hc]; [lia |].
    destruct (loop fn retries delay fuel (S i)) as [result steps].
    simpl in *. split; [| lia].
    rewrite Hs, Nat.sub_0_r.
    assert (0 < calls steps)%nat by (apply Hc; lia).
    replace (calls steps) with (S (calls steps - 1)) at 2 by lia.
    done.
Qed.

End Retry.

Lemma backoff_cons (delay : Z) (first n : nat) :
  backoff delay first (S n)
  = (delay * 2 ^ Z.of_nat first)%Z :: backoff delay (S first) n.
Proof. reflexivity. Qed.

Lemma backoff_total (delay : Z) (first n : nat) :
  foldr Z.add 0%Z (backoff delay first n)
  = (delay * 2 ^ Z.of_nat first * (2 ^ Z.of_nat n - 1))%Z.
Proof.
  revert first. induction n as [| n IH]; intros first.
  - simpl. lia.
  - rewrite backoff_cons. cbn [foldr]. rewrite IH.
    rewrite !Nat2Z.inj_succ, !Z.pow_succ_r by lia. lia.
Qed.

(** The outcome of [fetchWithRetry] tells what [fn] did.  A value is
    returned only if some call within the limit produced it and all
    calls before it failed; the error of [fn] is rethrown only if every
    one of the [retries] calls failed, and it is the error of the last
    one; the guard after the loop fires exactly when [retries] is 0, in
    which case [fn] is never called. *)
Theorem fetchWithRetry_outcomes {T E : Type} (fn : nat → Settled T E)
    (retries : nat) (delay : Z) :
  let run := fetchWithRetry fn retries delay in
  (∀ v, run.1 = Resolved v →
     ∃ k, (k < retries)%nat ∧ fn k = Resolved v ∧
          (∀ i, (i < k)%nat → ∃ e, fn i = Rejected e) ∧
          calls run.2 = S k) ∧
  (∀ e, run.1 = Rejected (Rethrown e) →
     (0 < retries)%nat ∧ fn (retries - 1)%nat = Rejected e ∧
     (∀ i, (i < retries)%nat → ∃ e', fn i = Rejected e') ∧
     calls run.2 = retries) ∧
  (run.1 = Rejected ShouldNotReachHere ↔ retries = 0%nat) ∧
  (retries = 0%nat → run.2 = []).
Proof.
  intros run. subst run. unfold fetchWithRetry.
  destruct (loop_outcome fn retries delay retries 0) as (Hres & Hrej & Hguard);
    [lia |].
  split; [| split; [| split; [exact Hguard |]]].
  - intros v Hv. destruct (Hres v Hv) as (k & _ & ? & ? & Hbefore & Hc).
    exists k. rewrite Nat.sub_0_r in Hc. repeat split; try done.
    intros i ?. apply Hbefore; lia.
  - intros e He. destruct (Hrej e He) as (? & ? & Hall & Hc).
    repeat split; try done. intros i ?. apply Hall; lia.
  - intros ->. reflexivity.
Qed.

(** Between two consecutive calls [fetchWithRetry] sleeps once, so a
    run of [n] calls sleeps [delay * (2^(n-1) - 1)] in total; with a
    delay that is not negative the total never exceeds
    [delay * (2^(retries-1) - 1)], which is 3000 ms for the default
    arguments. *)
Theorem fetchWithRetry_total_sleep {T E : Type} (fn : nat → Settled T E)
    (retries : nat) (delay : Z) :
  let run := fetchWithRetry fn retries delay in
  let slept := foldr Z.add 0%Z (sleeps run.2) in
  sleeps run.2
  = (λ i, (delay * 2 ^ Z.of_nat i)%Z) <$> seq 0 (calls run.2 - 1) ∧
  slept = (delay * (2 ^ Z.of_nat (calls run.2 - 1) - 1))%Z ∧
  ((0 ≤ delay)%Z →
   (slept ≤ delay * (2 ^ Z.of_nat (retries - 1) - 1))%Z) ∧
  (foldr Z.add 0%Z (sleeps (fetchWithRetry_default fn).2) ≤ 3000)%Z.
Proof.
  assert (Hgen : ∀ r d,
    let run := fetchWithRetry fn r d in
    sleeps run.2 = backoff d 0 (calls run.2 - 1) ∧
    foldr Z.add 0%Z (sleeps run.2)
    = (d * (2 ^ Z.of_nat (calls run.2 - 1) - 1))%Z ∧
    ((0 ≤ d)%Z →
     (foldr Z.add 0%Z (sleeps run.2)
      ≤ d * (2 ^ Z.of_nat (r - 1) - 1))%Z)).
  { intros r d run. subst run. unfold fetchWithRetry.
    destruct (loop_sleeps fn r d r 0) as [Hs _]; [lia |].
    pose proof (IngestionFacts.loop_calls_le fn r d r 0) as Hle.
    rewrite Hs, backoff_total. simpl Z.of_nat at 1.
    split; [done |]. split; [lia |].
    intros Hd.
    assert (2 ^ Z.of_nat (calls (loop fn r d r 0).2 - 1)
            ≤ 2 ^ Z.of_nat (r - 1))%Z
      by (apply Z.pow_le_mono_r; lia).
    nia. }
  intros run slept. subst run slept.
  destruct (Hgen retries delay) as (Hs & Htotal & Hbound).
  split; [exact Hs |]. split; [exact Htotal |]. split; [exact Hbound |].
  destruct (Hgen 3%nat 1000%Z) as (_ & _ & Hdefault).
  apply Hdefault. lia.
Qed.

End RetryOutcomeFacts.

(** ** Further properties of the price series and the returns *)

Module PriceSeriesFacts.
Import MarketDataEntity MarketDataService.

Global Instance priceTimestampAsc_trans : Transitive timestampAsc.
Proof. intros a b c. unfold timestampAsc. lia. Qed.

Global Instance priceTimestampAsc_total : Total timestampAsc.
Proof. intros a b. unfold timestampAsc. lia. Qed.

Lemma StronglySorted_take {A} (R : relation A) (n : nat) (l : list A) :
  StronglySorted R l → StronglySorted R (take n l).
Proof.
  intros Hsorted. rewrite <- (take_drop n l) in Hsorted.
  by apply StronglySorted_app_1_l in Hsorted.
Qed.

Lemma elem_of_take_1 {A} (n : nat) (l : list A) (x : A) :
  x ∈ take n l → x ∈ l.
Proof.
  rewrite elem_of_take. intros (i & Hi & _). by eapply list_elem_of_lookup_2.
Qed.

Lemma selected_spec (wanted : string) (startDate endDate : Date)
    (md : MarketData) :
  selected wanted (Some startDate) (Some endDate) md = true ↔
  asset md = wanted ∧ (startDate ≤ timestamp md ≤ endDate)%Z.
Proof.
  unfold selected. rewrite !andb_true_iff, !bool_decide_eq_true. tauto.
Qed.

Lemma findByAsset_elem (repository : gmap string MarketData)
    (wanted : string) (startDate endDate : Date) (limit : nat)
    (md : MarketData) :
  md ∈ findByAsset repository wanted (Some startDate) (Some endDate) limit →
  (∃ key, repository !! key = Some md) ∧
  asset md = wanted ∧ (startDate ≤ timestamp md ≤ endDate)%Z.
Proof.
  unfold findByAsset. intros Hin. apply elem_of_take_1 in Hin.
  rewrite merge_sort_Permutation, list_elem_of_In, filter_In,
    <- list_elem_of_In, list_elem_of_fmap, selected_spec in Hin.
  destruct Hin as [([key md'] & -> & Hin) Hsel]. split; [| done].
  exists key. by apply elem_of_map_to_list.
Qed.

Lemma findByAsset_sorted (repository : gmap string MarketData)
    (wanted : string) (startDate endDate : option Date) (limit : nat) :
  StronglySorted timestampAsc
    (findByAsset repository wanted startDate endDate limit).
Proof.
  unfold findByAsset. apply StronglySorted_take.
  apply (StronglySorted_merge_sort timestampAsc).
Qed.

(** The rows behind a price series. *)
Lemma price_series_rows (repository : gmap string MarketData)
    (wanted : string) (startDate endDate : Date) :
  let series := getPriceTimeSeries repository wanted startDate endDate in
  (length series ≤ 1000)%nat ∧
  StronglySorted (λ p q, (pointTimestamp p ≤ pointTimestamp q)%Z) series ∧
  (∀ p, p ∈ series →
     ∃ key md, repository !! key = Some md ∧ asset md = wanted ∧
       (startDate ≤ timestamp md ≤ endDate)%Z ∧
       pointTimestamp p = timestamp md ∧
       pointPrice p
       = match close md with
         | Some c => if Qeq_bool c 0 then price md else c
         | None => price md
         end) ∧
  ((length (List.filter (selected wanted (Some startDate) (Some endDate))
              (map_to_list repository).*2) ≤ 1000)%nat →
   ∀ key md, repository !! key = Some md → asset md = wanted →
     (startDate ≤ timestamp md ≤ endDate)%Z →
     ∃ p, p ∈ series ∧ pointTimestamp p = timestamp md).
Proof.
  intros series. subst series. unfold getPriceTimeSeries.
  split; [| split; [| split]].
  - rewrite length_fmap. unfold findByAsset. rewrite length_take. lia.
  - eapply StronglySorted_fmap; [| apply findByAsset_sorted]. done.
  - intros p. rewrite list_elem_of_fmap. intros (md & -> & Hin).
    apply findByAsset_elem in Hin as ([key Hkey] & Hasset & Hrange).
    exists key, md. repeat split; try done; try lia.
    simpl. unfold Number, orElse. by destruct (close md).
  - intros Hfew key md Hkey Hasset Hrange.
    exists {| pointTimestamp := timestamp md;
              pointPrice := orElse (Number (close md)) (price md) |}.
    split; [| reflexivity].
    apply list_elem_of_fmap. exists md. split; [done |].
    unfold findByAsset. rewrite take_ge.
    + rewrite merge_sort_Permutation, list_elem_of_In, filter_In,
        <- list_elem_of_In, list_elem_of_fmap, selected_spec.
      split; [| done]. exists (key, md). split; [done |].
      by apply elem_of_map_to_list.
    + by rewrite merge_sort_Permutation.
Qed.

(** [getPriceTimeSeries] returns at most 1000 points, in ascending
    order of timestamp; each comes from a stored row of the asset whose
    timestamp lies in the closed range, and its price is the row's
    [close] when that is present and not zero and the row's [price]
    otherwise.  When the asset has at most 1000 rows in the range, every
    one of them is in the series. *)
Theorem getPriceTimeSeries_window (repository : gmap string MarketData)
    (wanted : string) (startDate endDate : Date) :
  let series := getPriceTimeSeries repository wanted startDate endDate in
  (length series ≤ 1000)%nat ∧
  StronglySorted (λ p q, (pointTimestamp p ≤ pointTimestamp q)%Z) series ∧
  (∀ p, p ∈ series →
     ∃ key md, repository !! key = Some md ∧ asset md = wanted ∧
       (startDate ≤ timestamp md ≤ endDate)%Z ∧
       pointTimestamp p = timestamp md ∧
       pointPrice p
       = match close md with
         | Some c => if Qeq_bool c 0 then price md else c
         | None => price md
         end) ∧
  ((length (List.filter (selected wanted (Some startDate) (Some endDate))
              (map_to_list repository).*2) ≤ 1000)%nat →
   ∀ key md, repository !! key = Some md → asset md = wanted →
     (startDate ≤ timestamp md ≤ endDate)%Z →
     ∃ p, p ∈ series ∧ pointTimestamp p = timestamp md).
Proof. apply price_series_rows. Qed.

Lemma Forall_zip_snd {A B} (P : B → Prop) (k : list A) (l : list B) :
  Forall P l → Forall (λ pair, P pair.2) (zip k l).
Proof.
  intros Hall. revert k. induction Hall as [| x l Hx Hall IH]; intros k.
  - destruct k; constructor.
  - destruct k as [| a k]; [constructor |]. simpl. constructor; auto.
Qed.

Lemma StronglySorted_zip_snd {A B} (R : relation B) (k : list A)
    (l : list B) :
  StronglySorted R l → StronglySorted (λ x y, R x.2 y.2) (zip k l).
Proof.
  intros Hsorted. revert k.
  induction Hsorted as [| x l Hsorted IH Hall]; intros k.
  - destruct k; constructor.
  - destruct k as [| a k]; [constructor |]. simpl.
    constructor; [apply IH |]. by apply Forall_zip_snd.
Qed.

Lemma StronglySorted_omap {A B} (R : relation A) (S : relation B)
    (f : A → option B) (l : list A) :
  (∀ x y x' y', R x y → f x = Some x' → f y = Some y' → S x' y') →
  StronglySorted R l → StronglySorted S (omap f l).
Proof.
  intros Hmono. induction 1 as [| x l Hsorted IH Hall]; [constructor |].
  cbn [omap list_omap]. destruct (f x) as [x' |] eqn:Hx; [| exact IH].
  constructor; [exact IH |].
  rewrite Forall_forall in Hall. apply Forall_forall. intros y' Hy'.
  apply list_elem_of_omap in Hy' as (y & Hy & Hfy).
  eapply Hmono; [apply Hall; exact Hy | exact Hx | exact Hfy].
Qed.

(** [getReturns] returns at most 999 returns, in ascending order of
    timestamp, each stamped within the closed range asked for. *)
Theorem getReturns_window (repository : gmap string MarketData)
    (wanted : string) (startDate endDate : Date) :
  let returns := getReturns repository wanted startDate endDate in
  (length returns ≤ 999)%nat ∧
  StronglySorted (λ r s, (returnTimestamp r ≤ returnTimestamp s)%Z) returns ∧
  (∀ r, r ∈ returns → (startDate ≤ returnTimestamp r ≤ endDate)%Z).
Proof.
  intros returns. subst returns. unfold getReturns.
  rewrite MarketDataFacts.returnsOf_pairs.
  destruct (price_series_rows repository wanted startDate endDate)
    as (Hlen & Hsorted & Helem & _).
  set (prices := getPriceTimeSeries repository wanted startDate endDate) in *.
  split; [| split].
  - pose proof (MarketDataFacts.returnsOfPairs_length prices). lia.
  - unfold returnsOfPairs.
    eapply (StronglySorted_omap
              (λ x y, (pointTimestamp x.2 ≤ pointTimestamp y.2)%Z)).
    + intros [a b] [c d] r s Hle Hr Hs.
      apply MarketDataFacts.simpleReturn_Some in Hr as [_ ->].
      apply MarketDataFacts.simpleReturn_Some in Hs as [_ ->]. done.
    + apply (StronglySorted_zip_snd
               (λ p q, (pointTimestamp p ≤ pointTimestamp q)%Z)).
      destruct prices as [| first rest]; [constructor |].
      by apply StronglySorted_inv in Hsorted as [? _].
  - intros r Hr. unfold returnsOfPairs in Hr.
    apply list_elem_of_omap in Hr as ([prev curr] & Hin & Hr).
    apply MarketDataFacts.consecutive_pairs in Hin as (i & _ & Hcurr).
    apply MarketDataFacts.simpleReturn_Some in Hr as [_ ->]. simpl.
    apply list_elem_of_lookup_2, Helem in Hcurr
      as (key & md & _ & _ & Hrange & -> & _).
    exact Hrange.
Qed.

Lemma omap_simpleReturn_positive (pairs : list (PricePoint * PricePoint)) :
  Forall (λ pair, 0 < pointPrice pair.1) pairs →
  Forall2
    (λ pair r,
       returnTimestamp r = pointTimestamp pair.2 ∧
       return_ r
       = (pointPrice pair.2 - pointPrice pair.1) / pointPrice pair.1)
    pairs (omap simpleReturn pairs).
Proof.
  induction 1 as [| [prev curr] pairs Hpos Hall IH]; [constructor |].
  cbn [omap list_omap]. unfold simpleReturn at 1. simpl in Hpos.
  destruct (Qlt_le_dec 0 (pointPrice prev)) as [| Hnon].
  - constructor; [done | exact IH].
  - exfalso. apply (Qlt_irrefl 0). eapply Qlt_le_trans; eauto.
Qed.

Lemma Forall_zip_fst {A B} (P : A → Prop) (k : list A) (l : list B) :
  Forall P k → Forall (λ pair, P pair.1) (zip k l).
Proof.
  intros Hall. revert l. induction Hall as [| x k Hx Hall IH]; intros l.
  - constructor.
  - destruct l as [| b l]; [constructor |]. simpl. constructor; auto.
Qed.

(** When every price of the series is strictly positive, no pair is
    skipped: there is exactly one return per pair of consecutive
    prices, and the return at position [i] is stamped with the time of
    price [i + 1]. *)
Theorem returns_of_positive_prices (prices : list PricePoint) :
  Forall (λ p, 0 < pointPrice p) prices →
  length (returnsOf prices) = (length prices - 1)%nat ∧
  ∀ i prev curr,
    prices !! i = Some prev → prices !! S i = Some curr →
    ∃ r, returnsOf prices !! i = Some r ∧
         returnTimestamp r = pointTimestamp curr.
Proof.
  intros Hpos. rewrite MarketDataFacts.returnsOf_pairs. unfold returnsOfPairs.
  pose proof (omap_simpleReturn_positive (zip prices (tail prices))
                (Forall_zip_fst _ _ _ Hpos)) as Hall.
  split.
  - rewrite <- (Forall2_length _ _ _ Hall), length_zip.
    destruct prices; cbn [length tail]; lia.
  - intros i prev curr Hprev Hcurr.
    assert (Hpair : zip prices (tail prices) !! i = Some (prev, curr))
      by (apply lookup_zip_Some; by rewrite lookup_tail).
    destruct (Forall2_lookup_l _ _ _ _ _ Hall Hpair) as (r & Hr & Hts & _).
    exists r. split; [exact Hr | exact Hts].
Qed.

Lemma returns_of_positive_prices_witness :
  let prices := [ {| pointTimestamp := 1; pointPrice := 100 |};
                  {| pointTimestamp := 2; pointPrice := 110 |};
                  {| pointTimestamp := 3; pointPrice := 99 |} ] in
  length (returnsOf prices) = 2%nat.
Proof.
  intros prices.
  destruct (returns_of_positive_prices prices) as [Hlen _].
  - repeat constructor.
  - exact Hlen.
Defined.

End PriceSeriesFacts.

(** ** Further properties of getEventTimeSeries *)

Module EventSeriesFacts.
Import EventEntity EventsService.

(** Every point of an event time series comes from a stored event of
    the source and type asked for whose timestamp lies in the closed
    range, and every such event has its point; the points are in
    ascending order of timestamp. *)
Theorem getEventTimeSeries_in_range_ascending (repository : gmap string Event)
    (wantedSource : EventSource) (wantedType : string)
    (startDate endDate : Date) :
  let series :=
    getEventTimeSeries repository wantedSource wantedType startDate endDate in
  (∀ p, p ∈ series ↔
     ∃ e, (∃ key, repository !! key = Some e) ∧
          source e = wantedSource ∧ eventType e = wantedType ∧
          (startDate ≤ timestamp e ≤ endDate)%Z ∧
          p = toPoint e) ∧
  (∀ p, p ∈ series → (startDate ≤ pointTimestamp p ≤ endDate)%Z) ∧
  StronglySorted (λ p q, (pointTimestamp p ≤ pointTimestamp q)%Z) series.
Proof. apply EventsFacts.getEventTimeSeries_range_and_order. Qed.

End EventSeriesFacts.

(** ** Properties of listing and creation *)

Module HypothesesCatalogFacts.
Import HypothesisEntity HypothesesService HypothesesCatalog.

Global Instance createdAtDesc_trans : Transitive createdAtDesc.
Proof. intros a b c. unfold createdAtDesc. lia. Qed.

Global Instance createdAtDesc_total : Total createdAtDesc.
Proof. intros a b. unfold createdAtDesc. lia. Qed.

(** [findAll] returns the stored hypotheses of the status asked for,
    or all of them when no status is given, newest first; [findPending]
    returns the same hypotheses as [findAll] for Pending. *)
Theorem findAll_newest_first (app : App) (wanted : option HypothesisStatus) :
  let listed := (findAll wanted app).1 in
  (findAll wanted app).2 = app ∧
  (∀ h, h ∈ listed ↔
     (∃ key, hypothesesRepository app !! key = Some h) ∧
     match wanted with Some s => status h = s | None => True end) ∧
  StronglySorted (λ a b, (createdAt b ≤ createdAt a)%Z) listed ∧
  (wanted = None → length listed = size (hypothesesRepository app)) ∧
  (findPending app).1 ≡ₚ (findAll (Some PENDING) app).1.
Proof.
  intros listed.
  assert (Hperm : ∀ w, (findAll w app).1
                       ≡ₚ List.filter (matchesStatus w) (find app).1)
    by (intros w; apply merge_sort_Permutation).
  split; [reflexivity |]. split; [| split; [| split]].
  - intros h. subst listed.
    rewrite Hperm, list_elem_of_In, filter_In, <- list_elem_of_In,
      HypothesesFacts.stored_rows.
    unfold matchesStatus, hasStatus. destruct wanted as [s |].
    + by rewrite bool_decide_eq_true.
    + tauto.
  - apply (StronglySorted_merge_sort createdAtDesc).
  - intros ->. subst listed. rewrite Hperm. simpl.
    assert (Hall : ∀ l : list HypothesisRow, List.filter (λ _, true) l = l).
    { induction l as [| x l IH]; simpl; by rewrite ?IH. }
    unfold matchesStatus. rewrite Hall, length_fmap, length_map_to_list.
    done.
  - rewrite Hperm.
    pose proof (merge_sort_Permutation createdAtAsc
                  (List.filter isPending (find app).1)) as Hpending.
    exact Hpending.
Qed.

Lemma existing_Some (test : CommonTest) (catalog : Catalog)
    (h : HypothesisRow) :
  existing test catalog = Some h → stored test catalog.
Proof.
  unfold existing. intros Hhead.
  apply head_Some_elem_of, list_elem_of_In, filter_In in Hhead as [Hin Hsame].
  apply list_elem_of_In, list_elem_of_fmap in Hin as ([key h'] & -> & Hin).
  exists key, h'. split; [by apply elem_of_map_to_list | done].
Qed.

Lemma existing_None (test : CommonTest) (catalog : Catalog) :
  existing test catalog = None → ¬ stored test catalog.
Proof.
  unfold existing. intros Hhead (key & h & Hkey & Hsame).
  apply head_None in Hhead.
  assert (Hin : In h (List.filter (sameTest test)
                        (map_to_list (rows catalog)).*2)).
  { apply filter_In. split; [| done].
    apply list_elem_of_In, list_elem_of_fmap. exists (key, h).
    split; [done |]. by apply elem_of_map_to_list. }
  by rewrite Hhead in Hin.
Qed.

Lemma stored_mono (test : CommonTest) (catalog catalog' : Catalog) :
  rows catalog ⊆ rows catalog' → stored test catalog → stored test catalog'.
Proof.
  intros Hsub (key & h & Hkey & Hsame). exists key, h. split; [| done].
  by eapply lookup_weaken.
Qed.

Lemma sameTest_dataOf (test : CommonTest) (newId : string) (now : Date) :
  sameTest test (newHypothesis (dataOf test) newId now) = true.
Proof.
  unfold sameTest. simpl. by rewrite !bool_decide_eq_true_2.
Qed.

(** When every test of the list has its hypothesis, the loop creates
    nothing. *)
Lemma createIfMissing_noop (supply : nat → string * Date)
    (tests : list CommonTest) (catalog : Catalog)
    (hypotheses : list HypothesisRow) :
  (∀ test, test ∈ tests → stored test catalog) →
  foldl (createIfMissing supply) (catalog, hypotheses) tests
  = (catalog, hypotheses).
Proof.
  induction tests as [| test tests IH]; intros Hall; [done |].
  simpl. destruct (existing test catalog) as [h |] eqn:Hex.
  - apply IH. intros t Ht. apply Hall. by right.
  - exfalso. apply (existing_None _ _ Hex). apply Hall. by left.
Qed.

Section Run.
Variable supply : nat → string * Date.
Variable initial : Catalog.

Local Abbreviation grown := (HypothesesCatalog.grown supply initial).

Lemma createIfMissing_run (bound : nat) (tests : list CommonTest)
    (catalog : Catalog) (hypotheses : list HypothesisRow) :
  (∀ i, (i < bound)%nat → rows initial !! (supply i).1 = None) →
  (∀ i j, (i < bound)%nat → (j < bound)%nat →
     (supply i).1 = (supply j).1 → i = j) →
  (length hypotheses + length tests ≤ bound)%nat →
  grown catalog hypotheses →
  let final := foldl (createIfMissing supply) (catalog, hypotheses) tests in
  grown final.1 final.2 ∧
  rows catalog ⊆ rows final.1 ∧
  (∀ test, test ∈ tests → stored test final.1) ∧
  (length final.2 ≤ length hypotheses + length tests)%nat ∧
  length (announced final.1)
  = (length (announced catalog) + (length final.2 - length hypotheses))%nat ∧
  (length hypotheses ≤ length final.2)%nat.
Proof.
  intros Hfresh Hdistinct. revert catalog hypotheses.
  induction tests as [| test tests IH]; intros catalog hypotheses Hlen Hgrown.
  - simpl. repeat split; try done; try lia.
    intros test Htest. by apply elem_of_nil in Htest.
  - cbn [foldl]. cbn [length] in Hlen.
    destruct (existing test catalog) as [h |] eqn:Hex.
    + assert (Hstep : createIfMissing supply (catalog, hypotheses) test
                      = (catalog, hypotheses))
        by (unfold createIfMissing; by rewrite Hex).
      rewrite Hstep. cbv zeta. cbn [length].
      destruct (IH catalog hypotheses) as (Hg & Hsub & Hall & Hle & Hann & Hge);
        [lia | done |].
      split; [exact Hg |]. split; [exact Hsub |].
      split; [| split; [lia | split; [exact Hann | exact Hge]]].
      intros t Ht. apply elem_of_cons in Ht as [-> | Ht]; [| by apply Hall].
      eapply stored_mono; [exact Hsub |]. by eapply existing_Some.
    + destruct (supply (length hypotheses)) as [newId now] eqn:Hsupply.
      set (created := newHypothesis (dataOf test) newId now).
      set (catalog' :=
             {| rows := <[newId := created]> (rows catalog);
                announced :=
                  announced catalog
                  ++ [HYPOTHESIS_CREATED newId (eventType created)
                        (marketAsset created)] |}).
      assert (Hstep : createIfMissing supply (catalog, hypotheses) test
                      = (catalog', hypotheses ++ [created]))
        by (unfold createIfMissing; by rewrite Hex, Hsupply).
      rewrite Hstep. cbv zeta. cbn [length].
      assert (HnewId : newId = (supply (length hypotheses)).1)
        by (by rewrite Hsupply).
      assert (Hnone : rows catalog !! newId = None).
      { destruct (rows catalog !! newId) as [old |] eqn:Hold; [| done].
        exfalso. destruct (Hgrown newId) as [Hinit | (j & Hj & Hkey)];
          [by eexists | |].
        - rewrite HnewId, Hfresh in Hinit by lia. by destruct Hinit.
        - rewrite HnewId in Hkey. apply Hdistinct in Hkey; lia. }
      destruct (IH catalog' (hypotheses ++ [created]))
        as (Hg & Hsub & Hall & Hle & Hann & Hge).
      { rewrite length_app. simpl. lia. }
      { intros key. unfold catalog'. cbn [rows].
        rewrite lookup_insert. case_decide as Hkey.
        - intros _. right. exists (length hypotheses).
          rewrite length_app. simpl. split; [lia |]. by rewrite <- Hkey.
        - intros Hsome. destruct (Hgrown key Hsome) as [| (j & Hj & ->)];
            [by left |].
          right. exists j. rewrite length_app. simpl. split; [lia | done]. }
      rewrite length_app in Hle, Hann, Hge. simpl in Hle, Hann, Hge.
      assert (Hgrow : rows catalog ⊆ rows catalog')
        by (by apply insert_subseteq).
      split; [exact Hg |]. split; [by etrans |].
      split; [| split; [lia | split; [| lia]]].
      * intros t Ht. apply elem_of_cons in Ht as [-> | Ht]; [| by apply Hall].
        eapply stored_mono; [exact Hsub |].
        exists newId, created. split; [apply lookup_insert_eq |].
        apply sameTest_dataOf.
      * rewrite length_app in Hann. simpl in Hann. lia.
Qed.

End Run.

(** [generateCommonHypotheses] is idempotent.  With uuids that are new
    to the table and distinct, a first call creates at most five
    hypotheses, announces each of them once, keeps every row that was
    there, and leaves a hypothesis stored for each of the common tests;
    a second call creates nothing and changes nothing. *)
Theorem generateCommonHypotheses_idempotent
    (supply supply' : nat → string * Date) (catalog : Catalog) :
  (∀ i, (i < 5)%nat → rows catalog !! (supply i).1 = None) →
  (∀ i j, (i < 5)%nat → (j < 5)%nat → (supply i).1 = (supply j).1 → i = j) →
  let first := generateCommonHypotheses supply catalog in
  let again := generateCommonHypotheses supply' first.2 in
  (length first.1 ≤ 5)%nat ∧
  length (announced first.2)
  = (length (announced catalog) + length first.1)%nat ∧
  rows catalog ⊆ rows first.2 ∧
  (∀ test, test ∈ commonTests →
     ∃ key h, rows first.2 !! key = Some h ∧
       eventType h = testEventType test ∧
       marketAsset h = testMarketAsset test ∧
       testType h = testTestType test) ∧
  again.1 = [] ∧
  again.2 = first.2.
Proof.
  intros Hfresh Hdistinct first again.
  pose proof (createIfMissing_run supply catalog 5 commonTests catalog []
                Hfresh Hdistinct) as Hrun.
  destruct Hrun as (_ & Hsub & Hall & Hle & Hann & _).
  { simpl. lia. }
  { intros key Hkey. by left. }
  subst first again. unfold generateCommonHypotheses.
  destruct (foldl (createIfMissing supply) (catalog, []) commonTests)
    as [catalog' hypotheses] eqn:Hfold.
  cbn [fst snd] in *.
  rewrite (createIfMissing_noop supply' commonTests catalog' [] Hall).
  cbn [fst snd]. simpl in Hle, Hann. rewrite Nat.sub_0_r in Hann.
  split; [exact Hle |]. split; [exact Hann |]. split; [exact Hsub |].
  split; [| done].
  intros test Htest. destruct (Hall test Htest) as (key & h & Hkey & Hsame).
  exists key, h. split; [exact Hkey |].
  unfold sameTest in Hsame.
  rewrite !andb_true_iff, !bool_decide_eq_true in Hsame. tauto.
Qed.

Lemma generateCommonHypotheses_idempotent_witness :
  let supply := λ n : nat,
    (default "u5" (["u0"; "u1"; "u2"; "u3"; "u4"] !! n), 7%Z) in
  let empty := {| rows := ∅; announced := [] |} in
  let first := generateCommonHypotheses supply empty in
  (generateCommonHypotheses supply first.2).1 = [] ∧
  (generateCommonHypotheses supply first.2).2 = first.2.
Proof.
  intros supply empty first.
  destruct (generateCommonHypotheses_idempotent supply supply empty)
    as (_ & _ & _ & _ & Hnone & Hsame).
  - intros i _. apply lookup_empty.
  - intros i j Hi Hj.
    destruct i as [| [| [| [| [| i]]]]]; try lia;
      destruct j as [| [| [| [| [| j]]]]]; try lia; simpl; congruence.
  - split; [exact Hnone | exact Hsame].
Defined.

End HypothesesCatalogFacts.

(** ** Counting rows of a table *)

Module TableCounting.

Lemma length_filter_Permutation {A} (p : A → bool) (l l' : list A) :
  l ≡ₚ l' → length (List.filter p l) = length (List.filter p l').
Proof.
  induction 1 as [| x l l' _ IH | x y l | l l' l'' _ IH _ IH']; simpl.
  - done.
  - destruct (p x); simpl; by rewrite IH.
  - by destruct (p x), (p y).
  - by rewrite IH.
Qed.

Lemma values_stored {V} (m : gmap string V) (k : string) (a : V) :
  m !! k = Some a →
  (map_to_list m).*2 ≡ₚ a :: (map_to_list (delete k m)).*2.
Proof.
  intros Hk. rewrite <- (insert_delete_id m k a Hk) at 1.
  rewrite map_to_list_insert by apply lookup_delete_eq. done.
Qed.

Lemma values_alter {V} (f : V → V) (m : gmap string V) (k : string) (a : V) :
  m !! k = Some a →
  (map_to_list (alter f k m)).*2 ≡ₚ f a :: (map_to_list (delete k m)).*2.
Proof.
  intros Hk. rewrite <- (insert_delete_id m k a Hk) at 1.
  rewrite alter_insert_eq.
  rewrite map_to_list_insert by apply lookup_delete_eq. done.
Qed.

Lemma values_insert {V} (m : gmap string V) (k : string) (a : V) :
  m !! k = None →
  (map_to_list (<[k := a]> m)).*2 ≡ₚ a :: (map_to_list m).*2.
Proof. intros Hk. by rewrite map_to_list_insert. Qed.

(** Changing one row moves it from the rows that satisfy [p] before to
    those that satisfy [p] after. *)
Lemma count_alter {V} (p : V → bool) (f : V → V) (m : gmap string V)
    (k : string) (a : V) :
  m !! k = Some a →
  (length (List.filter p (map_to_list (alter f k m)).*2)
   + (if p a then 1 else 0)
   = length (List.filter p (map_to_list m).*2)
     + (if p (f a) then 1 else 0))%nat.
Proof.
  intros Hk.
  rewrite (length_filter_Permutation p _ _ (values_alter f m k a Hk)).
  rewrite (length_filter_Permutation p _ _ (values_stored m k a Hk)).
  simpl. destruct (p a), (p (f a)); simpl; lia.
Qed.

Lemma count_insert {V} (p : V → bool) (m : gmap string V)
    (k : string) (a : V) :
  m !! k = None →
  length (List.filter p (map_to_list (<[k := a]> m)).*2)
  = (length (List.filter p (map_to_list m).*2)
     + (if p a then 1 else 0))%nat.
Proof.
  intros Hk.
  rewrite (length_filter_Permutation p _ _ (values_insert m k a Hk)).
  simpl. destruct (p a); simpl; lia.
Qed.

End TableCounting.

(** ** The statistics along the life of a hypothesis *)

Module HypothesesStatsFacts.
Import HypothesisEntity AppEvents HypothesesService.

Ltac run_service := HypothesesFacts.run_service.

(** [getStats] follows the life of a hypothesis.  Queueing a Pending
    hypothesis moves one unit from [pending] to [running]; recording the
    results of a Running hypothesis moves one unit from [running] to
    [completed]; marking a Running hypothesis as failed moves one unit
    from [running] to [failed].  The other counts and the total do not
    change. *)
Theorem getStats_follows_lifecycle (app : App) (key message : string)
    (results : Results.t) (now : Date) (h : HypothesisRow) :
  hypothesesRepository app !! key = Some h →
  let before := (getStats app).1 in
  (status h = PENDING →
   let after := (getStats (queueForTesting key now app).2).1 in
   total after = total before ∧
   (pending after + 1)%nat = pending before ∧
   running after = (running before + 1)%nat ∧
   completed_ after = completed_ before ∧ failed_ after = failed_ before) ∧
  (status h = RUNNING →
   let after := (getStats (updateResults key results now app).2).1 in
   total after = total before ∧
   pending after = pending before ∧
   (running after + 1)%nat = running before ∧
   completed_ after = (completed_ before + 1)%nat ∧
   failed_ after = failed_ before) ∧
  (status h = RUNNING →
   let after := (getStats (markFailed key message now app).2).1 in
   total after = total before ∧
   pending after = pending before ∧
   (running after + 1)%nat = running before ∧
   completed_ after = completed_ before ∧
   failed_ after = (failed_ before + 1)%nat).
Proof.
  intros Hk before.
  assert (Hcount : ∀ patch s,
    (length (List.filter (hasStatus s)
               (map_to_list
                  (alter (applyPatch patch now) key
                     (hypothesesRepository app))).*2)
     + (if hasStatus s h then 1 else 0)
     = length (List.filter (hasStatus s)
                 (map_to_list (hypothesesRepository app)).*2)
       + (if hasStatus s (applyPatch patch now h) then 1 else 0))%nat)
    by (intros; by apply TableCounting.count_alter).
  assert (Htotal : ∀ patch,
    length (map_to_list
              (alter (applyPatch patch now) key
                 (hypothesesRepository app))).*2
    = length (map_to_list (hypothesesRepository app)).*2).
  { intros patch. rewrite !length_fmap, !length_map_to_list.
    rewrite <- !size_dom. by rewrite dom_alter_L. }
  subst before. split; [| split]; intros Hst after; subst after;
    run_service; rewrite ?Hk; simpl; rewrite Htotal;
    (split; [done |]);
    match goal with
    | |- context [alter (applyPatch ?patch now) key _] =>
        pose proof (Hcount patch PENDING) as Hp;
        pose proof (Hcount patch RUNNING) as Hr;
        pose proof (Hcount patch COMPLETED) as Hc;
        pose proof (Hcount patch FAILED) as Hf
    end;
    unfold hasStatus in Hp, Hr, Hc, Hf; simpl in Hp, Hr, Hc, Hf;
    rewrite Hst in Hp, Hr, Hc, Hf; simpl in Hp, Hr, Hc, Hf;
    unfold hasStatus; lia.
Qed.

Lemma getStats_follows_lifecycle_witness :
  let before := (getStats Fixtures.threeHypotheses).1 in
  let after :=
    (getStats (queueForTesting "h3" 12 Fixtures.threeHypotheses).2).1 in
  (pending after + 1)%nat = pending before ∧
  running after = (running before + 1)%nat.
Proof.
  intros before after.
  destruct (getStats_follows_lifecycle Fixtures.threeHypotheses "h3" "none"
              Fixtures.weakResults 12
              (Fixtures.vixHypothesis "h3" PENDING 3))
    as (Hqueue & _).
  - reflexivity.
  - destruct Hqueue as (_ & Hp & Hr & _); [reflexivity |].
    split; [exact Hp | exact Hr].
Defined.

End HypothesesStatsFacts.

(** ** Properties of the relationship queries *)

Module RelationshipsQueriesFacts.
Import RelationshipEntity RelationshipsQueries.

Ltac run_query :=
  unfold findAll, findSignificant, findSignificant_default, getStats, find,
    findOne, mbind, mret, Service_bind, Service_ret;
  simpl.

Global Instance pValueAsc_trans : Transitive pValueAsc.
Proof. intros a b c. unfold pValueAsc. apply Qle_trans. Qed.

Global Instance pValueAsc_total : Total pValueAsc.
Proof.
  intros a b. unfold pValueAsc.
  destruct (Qlt_le_dec (pValue b) (pValue a)) as [Hlt | Hle];
    [right; by apply Qlt_le_weak | by left].
Qed.

Global Instance hitRateDesc_trans : Transitive hitRateDesc.
Proof. intros a b c. unfold hitRateDesc. intros ? ?. by eapply Qle_trans. Qed.

Global Instance hitRateDesc_total : Total hitRateDesc.
Proof.
  intros a b. unfold hitRateDesc.
  destruct (Qlt_le_dec (hitRate a) (hitRate b)) as [Hlt | Hle];
    [right; by apply Qlt_le_weak | by left].
Qed.

Lemma stored_relationships (app : App) (r : Relationship) :
  r ∈ (find app).1 ↔ ∃ key, relationshipsRepository app !! key = Some r.
Proof.
  run_query. rewrite list_elem_of_fmap. split.
  - intros ([key r'] & -> & Hin). exists key. by apply elem_of_map_to_list.
  - intros [key Hk]. exists (key, r). split; [done |].
    by apply elem_of_map_to_list.
Qed.

(** [findSignificant] returns exactly the stored relationships that are
    flagged significant and whose p-value is at most [maxPValue] (0.05
    by default), best hit rate first; each of them is also listed by
    [findAll(true)], which is sorted by ascending p-value.  Neither call
    changes anything. *)
Theorem findSignificant_sound (app : App) (maxPValue : Q) :
  let found := (findSignificant maxPValue app).1 in
  (findSignificant maxPValue app).2 = app ∧
  (∀ r, r ∈ found ↔
     (∃ key, relationshipsRepository app !! key = Some r) ∧
     isSignificant r = true ∧ pValue r <= maxPValue) ∧
  StronglySorted (λ a b, hitRate b <= hitRate a) found ∧
  (∀ r, r ∈ found → r ∈ (findAll true app).1) ∧
  StronglySorted (λ a b, pValue a <= pValue b) (findAll true app).1 ∧
  findSignificant_default app = findSignificant (5 # 100) app.
Proof.
  intros found.
  assert (Hfound : ∀ r, r ∈ found ↔
     (∃ key, relationshipsRepository app !! key = Some r) ∧
     isSignificant r = true ∧ pValue r <= maxPValue).
  { intros r. subst found. run_query.
    rewrite merge_sort_Permutation, list_elem_of_In, filter_In,
      <- list_elem_of_In.
    change ((map_to_list (relationshipsRepository app)).*2)
      with (find app).1.
    rewrite stored_relationships. unfold significantWithin.
    rewrite andb_true_iff, bool_decide_eq_true. tauto. }
  split; [reflexivity |]. split; [exact Hfound |].
  split; [apply (StronglySorted_merge_sort hitRateDesc) |].
  split; [| split; [apply (StronglySorted_merge_sort pValueAsc) | reflexivity]].
  intros r Hr. apply Hfound in Hr as (Hkey & Hflag & _).
  run_query. rewrite merge_sort_Permutation, list_elem_of_In, filter_In,
    <- list_elem_of_In.
  change ((map_to_list (relationshipsRepository app)).*2) with (find app).1.
  by rewrite stored_relationships.
Qed.

(** [getStats] of the relationships, whatever the arithmetic of the
    averages: the call changes nothing, [total] is the number of rows,
    [significant] is the number of relationships that [findAll(true)]
    lists and is at most [total]; when no stored relationship is
    flagged significant, [significant] is 0 and both averages are the
    literal 0, no sum and no division being computed. *)
Theorem getStats_counts_and_empty_averages {number : Type}
    (Number : Q → number) (zero : number)
    (plus : number → number → number) (quotient : number → nat → number)
    (app : App) :
  let run := getStats Number zero plus quotient app in
  run.2 = app ∧
  total run.1 = size (relationshipsRepository app) ∧
  (significant run.1 ≤ total run.1)%nat ∧
  significant run.1 = length (findAll true app).1 ∧
  (significant run.1 = 0%nat →
   avgHitRate run.1 = zero ∧ avgEdge run.1 = zero) ∧
  ((∀ key r, relationshipsRepository app !! key = Some r →
      isSignificant r = false) →
   significant run.1 = 0%nat ∧
   avgHitRate run.1 = zero ∧ avgEdge run.1 = zero).
Proof.
  intros run. subst run. run_query.
  set (all := (map_to_list (relationshipsRepository app)).*2).
  set (chosen := List.filter isSignificant all).
  assert (Hempty : length chosen = 0%nat →
            averageOf Number zero plus quotient hitRate chosen = zero ∧
            averageOf Number zero plus quotient edge chosen = zero).
  { intros Hnone. unfold averageOf.
    rewrite !bool_decide_eq_false_2 by lia. done. }
  split; [done |]. split; [| split; [| split; [| split]]].
  - subst all. by rewrite length_fmap, length_map_to_list.
  - subst chosen. clear. induction all as [| r all IH]; simpl; [lia |].
    destruct (isSignificant r); simpl; lia.
  - rewrite merge_sort_Permutation. reflexivity.
  - exact Hempty.
  - intros Hnone.
    assert (Hchosen : chosen = []).
    { destruct chosen as [| r rest] eqn:Hrows; [done |]. exfalso.
      assert (Hr : In r (List.filter isSignificant all))
        by (fold chosen; rewrite Hrows; by left).
      apply filter_In in Hr as [Hin Hflag].
      apply list_elem_of_In, (stored_relationships app) in Hin as [key Hkey].
      by rewrite (Hnone key r Hkey) in Hflag. }
    split; [by rewrite Hchosen |]. apply Hempty. by rewrite Hchosen.
Qed.

End RelationshipsQueriesFacts.

(** ** Properties of AlertsService *)

Module AlertsFacts.
Import AppEvents AlertEntity AlertsService.

Global Instance alertCreatedAtDesc_trans : Transitive createdAtDesc.
Proof. intros a b c. unfold createdAtDesc. lia. Qed.

Global Instance alertCreatedAtDesc_total : Total createdAtDesc.
Proof. intros a b. unfold createdAtDesc. lia. Qed.

Lemma worthAnAlert_spec (payload : RelationshipDiscoveredPayload) :
  worthAnAlert payload = true ↔
  payloadPValue payload < 1 # 100 ∧ 6 # 10 < payloadHitRate payload.
Proof.
  unfold worthAnAlert. by rewrite andb_true_iff, !bool_decide_eq_true.
Qed.

(** The two cases of the handler. *)
Lemma handler_gate
    (renderMessage : RelationshipDiscoveredPayload → string)
    (renderMetadata : RelationshipDiscoveredPayload → Json)
    (payload : RelationshipDiscoveredPayload) (newId : string) (now : Date)
    (state : Alerts) :
  let state' :=
    handleRelationshipDiscovered renderMessage renderMetadata payload
      newId now state in
  (payloadPValue payload < 1 # 100 ∧ 6 # 10 < payloadHitRate payload →
   (∃ alert,
      alertsRepository state' = <[newId := alert]> (alertsRepository state) ∧
      id alert = newId ∧ severity alert = HIGH ∧
      signalType alert = "relationship_discovered" ∧
      confidence alert = Some (payloadHitRate payload) ∧
      relationshipId alert = Some (payloadRelationshipId payload) ∧
      eventId alert = None ∧
      isRead alert = false ∧ isDismissed alert = false ∧
      createdAt alert = now) ∧
   triggered state'
   = triggered state
     ++ [ALERT_TRIGGERED newId "relationship_discovered" HIGH None
           (Some (payloadRelationshipId payload))]) ∧
  (¬ (payloadPValue payload < 1 # 100 ∧ 6 # 10 < payloadHitRate payload) →
   state' = state).
Proof.
  intros state'. subst state'. unfold handleRelationshipDiscovered.
  pose proof (worthAnAlert_spec payload) as Hgate.
  destruct (worthAnAlert payload); split.
  - intros _. simpl. split; [| done]. eexists. split; [reflexivity |]. done.
  - intros Hnot. exfalso. apply Hnot. by apply Hgate.
  - intros Hyes. apply Hgate in Hyes. done.
  - done.
Qed.

(** [handleRelationshipDiscovered] raises an alert exactly when the
    p-value of the payload is below 0.01 and its hit rate above 0.6,
    both strictly.  The alert is stored under the new id with severity
    HIGH, the hit rate as confidence and the id of the relationship,
    unread and not dismissed, and one [alert.triggered] event is
    emitted for it.  In every other case nothing is stored and nothing
    is emitted. *)
Theorem handleRelationshipDiscovered_gate
    (renderMessage : RelationshipDiscoveredPayload → string)
    (renderMetadata : RelationshipDiscoveredPayload → Json)
    (payload : RelationshipDiscoveredPayload) (newId : string) (now : Date)
    (state : Alerts) :
  let state' :=
    handleRelationshipDiscovered renderMessage renderMetadata payload
      newId now state in
  (payloadPValue payload < 1 # 100 ∧ 6 # 10 < payloadHitRate payload →
   (∃ alert,
      alertsRepository state' = <[newId := alert]> (alertsRepository state) ∧
      id alert = newId ∧ severity alert = HIGH ∧
      signalType alert = "relationship_discovered" ∧
      confidence alert = Some (payloadHitRate payload) ∧
      relationshipId alert = Some (payloadRelationshipId payload) ∧
      eventId alert = None ∧
      isRead alert = false ∧ isDismissed alert = false ∧
      createdAt alert = now) ∧
   triggered state'
   = triggered state
     ++ [ALERT_TRIGGERED newId "relationship_discovered" HIGH None
           (Some (payloadRelationshipId payload))]) ∧
  (¬ (payloadPValue payload < 1 # 100 ∧ 6 # 10 < payloadHitRate payload) →
   state' = state).
Proof. apply handler_gate. Qed.

(** A p-value of exactly 0.01 or a hit rate of exactly 0.6 raises no
    alert. *)
Example handleRelationshipDiscovered_thresholds :
  worthAnAlert {| payloadRelationshipId := "r1"; payloadEventType := "cpi";
                  payloadMarketAsset := "TLT"; payloadPValue := 1 # 100;
                  payloadHitRate := 9 # 10 |} = false ∧
  worthAnAlert {| payloadRelationshipId := "r1"; payloadEventType := "cpi";
                  payloadMarketAsset := "TLT"; payloadPValue := 1 # 1000;
                  payloadHitRate := 6 # 10 |} = false ∧
  worthAnAlert {| payloadRelationshipId := "r1"; payloadEventType := "cpi";
                  payloadMarketAsset := "TLT"; payloadPValue := 1 # 1000;
                  payloadHitRate := 61 # 100 |} = true.
Proof. repeat split. Qed.

(** The alert raised for a new Relationship depends on its p-value and
    hit rate only.  When [RelationshipsService.create] announces a
    Relationship, the handler stores an alert if and only if the
    p-value given to [create] is below 0.01 and the hit rate above 0.6,
    whatever the [isSignificant] flag of the Relationship is. *)
Theorem alert_ignores_significance_flag
    (renderMessage : RelationshipDiscoveredPayload → string)
    (renderMetadata : RelationshipDiscoveredPayload → Json)
    (data : RelationshipData.t) (relationshipKey alertKey : string)
    (now : Date) (app : App) (state : Alerts) :
  alertsRepository state !! alertKey = None →
  let announced :=
    RELATIONSHIP_DISCOVERED relationshipKey (RelationshipData.eventType data)
      (RelationshipData.marketAsset data) (RelationshipData.pValue data)
      (RelationshipData.hitRate data) in
  let state' :=
    onEvent renderMessage renderMetadata announced alertKey now state in
  emitted (RelationshipsService.create data relationshipKey now app).2
  = emitted app ++ [announced] ∧
  (is_Some (alertsRepository state' !! alertKey) ↔
   RelationshipData.pValue data < 1 # 100 ∧
   6 # 10 < RelationshipData.hitRate data).
Proof.
  intros Hfresh announced state'. split; [reflexivity |].
  subst state' announced. unfold onEvent.
  destruct (handler_gate renderMessage renderMetadata
              {| payloadRelationshipId := relationshipKey;
                 payloadEventType := RelationshipData.eventType data;
                 payloadMarketAsset := RelationshipData.marketAsset data;
                 payloadPValue := RelationshipData.pValue data;
                 payloadHitRate := RelationshipData.hitRate data |}
              alertKey now state) as [Hyes Hno].
  simpl in Hyes, Hno.
  destruct (decide (RelationshipData.pValue data < 1 # 100 ∧
                    6 # 10 < RelationshipData.hitRate data)) as [Hgate | Hgate].
  - destruct (Hyes Hgate) as [(alert & -> & _) _].
    rewrite lookup_insert_eq. split; [done | by eexists].
  - rewrite (Hno Hgate), Hfresh. split; [by intros [? ?] | done].
Qed.

Lemma alert_ignores_significance_flag_witness :
  let state := {| alertsRepository := ∅; triggered := [] |} in
  let flaggedInsignificant :=
    {| RelationshipData.eventType := "vix_spike";
       RelationshipData.marketAsset := "SPY";
       RelationshipData.hitRate := 9 # 10;
       RelationshipData.edge := 120;
       RelationshipData.pValue := 1 # 1000;
       RelationshipData.sampleSize := 40;
       RelationshipData.description := None;
       RelationshipData.metadata := None;
       RelationshipData.isSignificant := Some false |} in
  is_Some
    (alertsRepository
       (onEvent (λ _, "text") (λ _, "{}")
          (RELATIONSHIP_DISCOVERED "r1" "vix_spike" "SPY" (1 # 1000) (9 # 10))
          "a1" 5 state) !! "a1").
Proof.
  intros state flaggedInsignificant.
  destruct (alert_ignores_significance_flag (λ _, "text") (λ _, "{}")
              flaggedInsignificant "r1" "a1" 5 Fixtures.oneRunning state)
    as [_ Hiff].
  - apply lookup_empty.
  - apply Hiff. split; reflexivity.
Defined.

Lemma passes_not_dismissed (filters : AlertFilters.t) (a : Alert) :
  passes filters a = true → isDismissed a = false.
Proof.
  unfold passes. rewrite !andb_true_iff, negb_true_iff. tauto.
Qed.

Lemma findAll_elem (filters : AlertFilters.t) (state : Alerts) (a : Alert) :
  a ∈ findAll filters state →
  (∃ key, alertsRepository state !! key = Some a) ∧ passes filters a = true.
Proof.
  unfold findAll. intros Hin.
  apply PriceSeriesFacts.elem_of_take_1 in Hin.
  assert (Hdrop : ∀ (n : nat) (l : list Alert) x, x ∈ drop n l → x ∈ l).
  { intros n l x Hx. rewrite <- (take_drop n l). apply elem_of_app. by right. }
  apply Hdrop in Hin.
  rewrite merge_sort_Permutation, list_elem_of_In, filter_In,
    <- list_elem_of_In, list_elem_of_fmap in Hin.
  destruct Hin as [([key a'] & -> & Hin) Hpass]. split; [| done].
  exists key. by apply elem_of_map_to_list.
Qed.

(** [findAll] never lists a dismissed alert.  Every alert it returns is
    stored and meets the filters given: the severity, the signal type
    unless that is the empty string, and the read flag.  The alerts come
    newest first, and at most [limit] of them (50 by default) for a
    limit of at least 1. *)
Theorem findAll_page (filters : AlertFilters.t) (state : Alerts) :
  let page := findAll filters state in
  ((0 < default 50%nat (AlertFilters.limit filters))%nat →
   (length page ≤ default 50%nat (AlertFilters.limit filters))%nat) ∧
  StronglySorted (λ a b, (createdAt b ≤ createdAt a)%Z) page ∧
  ∀ a, a ∈ page →
    (∃ key, alertsRepository state !! key = Some a) ∧
    isDismissed a = false ∧
    (∀ wanted, AlertFilters.severity filters = Some wanted →
       severity a = wanted) ∧
    (∀ wanted, AlertFilters.signalType filters = Some wanted →
       wanted ≠ "" → signalType a = wanted) ∧
    (∀ wanted, AlertFilters.isRead filters = Some wanted →
       isRead a = wanted).
Proof.
  intros page. subst page. split; [| split].
  - intros _. unfold findAll. rewrite length_take. lia.
  - unfold findAll. apply PriceSeriesFacts.StronglySorted_take.
    assert (Hdrop : ∀ (n : nat) (l : list Alert),
              StronglySorted createdAtDesc l →
              StronglySorted createdAtDesc (drop n l)).
    { intros n l Hsorted. rewrite <- (take_drop n l) in Hsorted.
      by apply StronglySorted_app_1_r in Hsorted. }
    apply Hdrop. apply (StronglySorted_merge_sort createdAtDesc).
  - intros a Ha. apply findAll_elem in Ha as [Hkey Hpass].
    split; [exact Hkey |]. split; [by eapply passes_not_dismissed |].
    unfold passes in Hpass. rewrite !andb_true_iff in Hpass.
    destruct Hpass as [[[Hsev Hsig] Hread] _].
    split; [| split].
    + intros wanted Hw. rewrite Hw in Hsev. by apply bool_decide_eq_true in Hsev.
    + intros wanted Hw Hnonempty. rewrite Hw in Hsig.
      rewrite bool_decide_eq_false_2 in Hsig by done.
      by apply bool_decide_eq_true in Hsig.
    + intros wanted Hw. rewrite Hw in Hread.
      by apply bool_decide_eq_true in Hread.
Qed.

(** Dismissing a stored alert sets its flag and nothing else on it;
    from then on no call of [findAll] lists it, whatever the filters,
    and it no longer counts as unread. *)
Theorem markDismissed_hides (key : string) (state : Alerts) (a : Alert) :
  alertsRepository state !! key = Some a →
  let state' := (markDismissed key state).2 in
  (markDismissed key state).1 = Some (setDismissed a) ∧
  alertsRepository state' !! key = Some (setDismissed a) ∧
  isDismissed (setDismissed a) = true ∧
  isRead (setDismissed a) = isRead a ∧
  (∀ filters, setDismissed a ∉ findAll filters state') ∧
  (getUnreadCount state' + (if unread a then 1 else 0))%nat
  = getUnreadCount state ∧
  triggered state' = triggered state.
Proof.
  intros Hk state'. subst state'. unfold markDismissed, findOne. simpl.
  rewrite lookup_alter_eq, Hk. simpl.
  split; [done |]. split; [done |]. split; [done |]. split; [done |].
  split; [| split; [| done]].
  - intros filters Hin. apply findAll_elem in Hin as [_ Hpass].
    by apply passes_not_dismissed in Hpass.
  - unfold getUnreadCount. simpl.
    pose proof (TableCounting.count_alter unread setDismissed
                  (alertsRepository state) key a Hk) as Hcount.
    assert (Hnow : unread (setDismissed a) = false)
      by (unfold unread; simpl; apply andb_false_r).
    rewrite Hnow in Hcount. lia.
Qed.

Lemma markDismissed_hides_witness :
  let alert :=
    newAlert
      {| AlertData.signalType := "threshold"; AlertData.title := "t";
         AlertData.message := "m"; AlertData.severity := None;
         AlertData.confidence := None; AlertData.eventId := None;
         AlertData.relationshipId := None; AlertData.metadata := None;
         AlertData.aiAnalysis := None; AlertData.isRead := None;
         AlertData.isDismissed := None |} "a1" 3 in
  let state := {| alertsRepository := {[ "a1" := alert ]}; triggered := [] |} in
  getUnreadCount state = 1%nat ∧
  getUnreadCount (markDismissed "a1" state).2 = 0%nat.
Proof.
  intros alert state.
  destruct (markDismissed_hides "a1" state alert)
    as (_ & _ & _ & _ & _ & Hcount & _).
  - reflexivity.
  - assert (Hone : getUnreadCount state = 1%nat) by reflexivity.
    split; [exact Hone |]. rewrite Hone in Hcount.
    change (unread alert) with true in Hcount. cbv iota in Hcount. lia.
Defined.

(** Marking a stored alert as read takes it out of the unread count if
    it was counted, and changes the count in no other way; marking it
    again changes nothing. *)
Theorem markRead_once (key : string) (state : Alerts) (a : Alert) :
  alertsRepository state !! key = Some a →
  let state' := (markRead key state).2 in
  (markRead key state).1 = Some (setRead a) ∧
  isRead (setRead a) = true ∧
  isDismissed (setRead a) = isDismissed a ∧
  (getUnreadCount state' + (if unread a then 1 else 0))%nat
  = getUnreadCount state ∧
  (markRead key state').2 = state'.
Proof.
  intros Hk state'. subst state'. unfold markRead, findOne. simpl.
  rewrite lookup_alter_eq, Hk. simpl.
  split; [done |]. split; [done |]. split; [done |]. split.
  - unfold getUnreadCount. simpl.
    pose proof (TableCounting.count_alter unread setRead
                  (alertsRepository state) key a Hk) as Hcount.
    assert (Hnow : unread (setRead a) = false) by done.
    rewrite Hnow in Hcount. lia.
  - f_equal. apply map_eq. intros k.
    destruct (decide (key = k)) as [<- | Hne].
    + by rewrite !lookup_alter_eq, Hk.
    + by rewrite !lookup_alter_ne.
Qed.

Lemma markRead_once_witness :
  let alert :=
    newAlert
      {| AlertData.signalType := "threshold"; AlertData.title := "t";
         AlertData.message := "m"; AlertData.severity := None;
         AlertData.confidence := None; AlertData.eventId := None;
         AlertData.relationshipId := None; AlertData.metadata := None;
         AlertData.aiAnalysis := None; AlertData.isRead := None;
         AlertData.isDismissed := None |} "a1" 3 in
  let state := {| alertsRepository := {[ "a1" := alert ]}; triggered := [] |} in
  (markRead "a1" (markRead "a1" state).2).2 = (markRead "a1" state).2.
Proof.
  intros alert state.
  destruct (markRead_once "a1" state alert) as (_ & _ & _ & _ & Hagain).
  - reflexivity.
  - exact Hagain.
Defined.

End AlertsFacts.

(** ** Properties of the candles and of the latest price *)

Module MarketDataQueriesFacts.
Import MarketDataEntity MarketDataService MarketDataQueries.

Global Instance timestampDesc_trans : Transitive timestampDesc.
Proof. intros a b c. unfold timestampDesc. lia. Qed.

Global Instance timestampDesc_total : Total timestampDesc.
Proof. intros a b. unfold timestampDesc. lia. Qed.


(** [getLatestPrice] returns null exactly when no row of the asset is
    stored; otherwise it returns a stored row of the asset that no other
    row of the asset is later than. *)
Theorem getLatestPrice_latest (repository : gmap string MarketData)
    (wanted : string) :
  (getLatestPrice repository wanted = None ↔
   ∀ key md, repository !! key = Some md → asset md ≠ wanted) ∧
  (∀ latest, getLatestPrice repository wanted = Some latest →
     (∃ key, repository !! key = Some latest) ∧
     asset latest = wanted ∧
     ∀ key md, repository !! key = Some md → asset md = wanted →
       (timestamp md ≤ timestamp latest)%Z).
Proof.
  unfold getLatestPrice.
  set (rows := List.filter (λ md, bool_decide (asset md = wanted))
                 (map_to_list repository).*2).
  assert (Hrows : ∀ md, md ∈ merge_sort timestampDesc rows ↔
            (∃ key, repository !! key = Some md) ∧ asset md = wanted).
  { intros md. subst rows.
    rewrite merge_sort_Permutation, list_elem_of_In, filter_In,
      <- list_elem_of_In, list_elem_of_fmap, bool_decide_eq_true.
    split.
    - intros [([key md'] & -> & Hin) Hasset]. split; [| done].
      exists key. by apply elem_of_map_to_list.
    - intros [[key Hkey] Hasset]. split; [| done].
      exists (key, md). split; [done |]. by apply elem_of_map_to_list. }
  pose proof (StronglySorted_merge_sort timestampDesc rows) as Hsorted.
  destruct (merge_sort timestampDesc rows) as [| first rest] eqn:Hlist;
    simpl; split.
  - split; [| done]. intros _ key md Hkey Hasset.
    assert (Hin : md ∈ @nil MarketData) by (apply Hrows; eauto).
    by apply elem_of_nil in Hin.
  - done.
  - split; [done |]. intros Hnone. exfalso.
    destruct (Hrows first) as [Hfirst _].
    destruct Hfirst as [[key Hkey] Hasset]; [by left |].
    by apply (Hnone key first).
  - intros latest [= <-].
    destruct (Hrows first) as [Hfirst _].
    destruct Hfirst as [Hkey Hasset]; [by left |].
    split; [exact Hkey |]. split; [exact Hasset |].
    intros key md Hmd Hmdasset.
    assert (Hin : md ∈ first :: rest) by (apply Hrows; eauto).
    apply elem_of_cons in Hin as [-> | Hin]; [lia |].
    apply StronglySorted_inv in Hsorted as [_ Hall].
    rewrite Forall_forall in Hall. by apply Hall.
Qed.

End MarketDataQueriesFacts.

(** ** Properties of listing and counting events *)

Module EventsQueriesFacts.
Import EventEntity EventsQueries.

Global Instance eventTimestampDesc_trans : Transitive timestampDesc.
Proof. intros a b c. unfold timestampDesc. lia. Qed.

Global Instance eventTimestampDesc_total : Total timestampDesc.
Proof. intros a b. unfold timestampDesc. lia. Qed.

(** The two ways of writing the date conditions select the same
    events. *)
Lemma dates_agree (startDate endDate : option Date) (e : Event) :
  datesOfFindAll startDate endDate e = datesOfCount startDate endDate e.
Proof.
  unfold datesOfFindAll, datesOfCount.
  destruct startDate, endDate; simpl; by rewrite ?andb_true_r.
Qed.

Lemma listed_counted (filters : EventFilters.t) (e : Event) :
  listed filters e = counted filters e.
Proof. unfold listed, counted. by rewrite dates_agree. Qed.

Lemma filter_ext_list {A} (f g : A → bool) (l : list A) :
  (∀ x, f x = g x) → List.filter f l = List.filter g l.
Proof.
  intros Hfg. induction l as [| x l IH]; simpl; [done |].
  by rewrite Hfg, IH.
Qed.

(** [findAll] and [count] agree: with the same filters, [findAll]
    returns the page of the events that [count] counts, that is
    [min(limit, count - offset)] events (limit 100 and offset 0 by
    default), none if the offset is past the count.  The events of the
    page are stored, come newest first and meet the filters: the source,
    the event type and the entity unless that string is empty, and the
    date bounds that are given. *)
Theorem findAll_pages_of_count (repository : gmap string Event)
    (filters : EventFilters.t) :
  let page := findAll repository filters in
  let limit := default 100%nat (EventFilters.limit filters) in
  let offset := default 0%nat (EventFilters.offset filters) in
  ((0 < limit)%nat →
   length page = (limit `min` (count repository filters - offset))%nat) ∧
  StronglySorted (λ a b, (timestamp b ≤ timestamp a)%Z) page ∧
  ∀ e, e ∈ page →
    (∃ key, repository !! key = Some e) ∧
    (∀ s, EventFilters.source filters = Some s → source e = s) ∧
    (∀ t, EventFilters.eventType filters = Some t → t ≠ "" →
       eventType e = t) ∧
    (∀ n, EventFilters.entity filters = Some n → n ≠ "" →
       entity e = Some n) ∧
    (∀ s, EventFilters.startDate filters = Some s → (s ≤ timestamp e)%Z) ∧
    (∀ d, EventFilters.endDate filters = Some d → (timestamp e ≤ d)%Z).
Proof.
  intros page limit offset. subst page limit offset. unfold findAll, count.
  split; [| split].
  - intros _. rewrite length_take, length_drop, merge_sort_Permutation.
    by rewrite (filter_ext_list _ _ _ (listed_counted filters)).
  - apply PriceSeriesFacts.StronglySorted_take.
    assert (Hdrop : ∀ (n : nat) (l : list Event),
              StronglySorted timestampDesc l →
              StronglySorted timestampDesc (drop n l)).
    { intros n l Hsorted. rewrite <- (take_drop n l) in Hsorted.
      by apply StronglySorted_app_1_r in Hsorted. }
    apply Hdrop. apply (StronglySorted_merge_sort timestampDesc).
  - intros e Hin. apply PriceSeriesFacts.elem_of_take_1 in Hin.
    assert (Hdrop : ∀ (n : nat) (l : list Event) x, x ∈ drop n l → x ∈ l).
    { intros n l x Hx. rewrite <- (take_drop n l). apply elem_of_app.
      by right. }
    apply Hdrop in Hin.
    rewrite merge_sort_Permutation, list_elem_of_In, filter_In,
      <- list_elem_of_In, list_elem_of_fmap in Hin.
    destruct Hin as [([key e'] & -> & Hin) Hpass]. simpl in *.
    split; [exists key; by apply elem_of_map_to_list |].
    rewrite listed_counted in Hpass. unfold counted in Hpass.
    rewrite !andb_true_iff in Hpass.
    destruct Hpass as [[[Hsrc Hty] Hent] Hdates].
    unfold datesOfCount in Hdates. rewrite andb_true_iff in Hdates.
    destruct Hdates as [Hstart Hend].
    repeat split.
    + intros s Hs. unfold sourceFilter in Hsrc. rewrite Hs in Hsrc.
      by apply bool_decide_eq_true in Hsrc.
    + intros t Ht Hnon. unfold stringFilter in Hty. rewrite Ht in Hty.
      rewrite bool_decide_eq_false_2 in Hty by done.
      apply bool_decide_eq_true in Hty. by injection Hty.
    + intros n Hn Hnon. unfold stringFilter in Hent. rewrite Hn in Hent.
      rewrite bool_decide_eq_false_2 in Hent by done.
      by apply bool_decide_eq_true in Hent.
    + intros s Hs. rewrite Hs in Hstart.
      by apply bool_decide_eq_true in Hstart.
    + intros d Hd. rewrite Hd in Hend. by apply bool_decide_eq_true in Hend.
Qed.

End EventsQueriesFacts.

(** ** Properties of batches and of the ingestion scheduler *)

Module IngestionSchedulerFacts.
Import EventEntity EventsService EventsQueries IngestionScheduler.

(** Inserting rows under keys that are new and distinct adds exactly
    those rows. *)
Lemma saveAll_fresh {D} (data : list D) :
  ∀ (key : nat → string) (mk : nat → D → Event)
    (repository : gmap string Event),
  (∀ i d, id (mk i d) = key i) →
  (∀ i, (i < length data)%nat → repository !! key i = None) →
  (∀ i j, (i < length data)%nat → (j < length data)%nat →
     key i = key j → i = j) →
  let saved := saveAll (imap mk data) repository in
  (∀ i d, data !! i = Some d → saved !! key i = Some (mk i d)) ∧
  (∀ k, (∀ i, (i < length data)%nat → k ≠ key i) →
     saved !! k = repository !! k) ∧
  size saved = (size repository + length data)%nat.
Proof.
  induction data as [| d data IH]; intros key mk repository Hid Hfresh Hinj.
  - simpl. split; [| split; [done | lia]].
    intros i d' Hd'. by rewrite lookup_nil in Hd'.
  - rewrite imap_cons. cbn [saveAll foldl]. rewrite Hid.
    destruct (IH (key ∘ S) (mk ∘ S) (<[key 0%nat := mk 0%nat d]> repository))
      as (Hnew & Hold & Hsize).
    { intros i d'. apply Hid. }
    { intros i Hi. simpl. rewrite lookup_insert_ne.
      - apply Hfresh. simpl. lia.
      - intros Heq. apply Hinj in Heq; simpl; lia. }
    { intros i j Hi Hj Heq. simpl in Heq.
      apply Hinj in Heq; simpl; lia. }
    fold (saveAll (imap (mk ∘ S) data)
            (<[key 0%nat := mk 0%nat d]> repository)).
    split; [| split].
    + intros [| i] d' Hd'.
      * injection Hd' as <-. rewrite Hold.
        -- apply lookup_insert_eq.
        -- intros i Hi Heq. apply Hinj in Heq; simpl; lia.
      * by apply (Hnew i d').
    + intros k Hk. rewrite Hold.
      * apply lookup_insert_ne. intros Heq. by apply (Hk 0%nat); simpl; [lia |].
      * intros i Hi. apply (Hk (S i)). simpl. lia.
    + rewrite Hsize, map_size_insert_None.
      * simpl. lia.
      * apply Hfresh. simpl. lia.
Qed.

Lemma ids_of_batch {D} (data : list D) (key : nat → string)
    (mk : nat → D → Event) :
  (∀ i d, id (mk i d) = key i) →
  id <$> imap mk data = key <$> seq 0 (length data).
Proof.
  intros Hid. revert key mk Hid.
  induction data as [| d data IH]; intros key mk Hid; [done |].
  rewrite imap_cons. cbn [length seq]. rewrite !fmap_cons, Hid. f_equal.
  rewrite (IH (key ∘ S) (mk ∘ S)) by (intros; apply Hid).
  by rewrite <- fmap_S_seq, <- list_fmap_compose.
Qed.

(** The rows and the event of a batch. *)
Lemma saveEvents_rows (rawEvents : list RawEvent) (wanted : EventSource)
    (supply : nat → string) (now : Date) (store : Store) :
  (∀ i, (i < length rawEvents)%nat →
     eventsRepository store !! supply i = None) →
  (∀ i j, (i < length rawEvents)%nat → (j < length rawEvents)%nat →
     supply i = supply j → i = j) →
  let store' := saveEvents rawEvents wanted supply now store in
  (rawEvents = [] → store' = store) ∧
  (rawEvents ≠ [] →
   batches store'
   = batches store
     ++ [EVENT_BATCH_CREATED (length rawEvents) (Some wanted)
           (supply <$> seq 0 (length rawEvents))]) ∧
  size (eventsRepository store')
  = (size (eventsRepository store) + length rawEvents)%nat ∧
  (∀ k e, eventsRepository store !! k = Some e →
     eventsRepository store' !! k = Some e) ∧
  (∀ i raw, rawEvents !! i = Some raw →
     ∃ e, eventsRepository store' !! supply i = Some e ∧
       id e = supply i ∧ source e = wanted ∧
       timestamp e = rawTimestamp raw ∧ eventType e = rawEventType raw ∧
       entity e = rawEntity raw ∧ value e = rawValue raw ∧
       metadata e = rawMetadata raw ∧
       summary e = None ∧ sentiment e = None ∧ embedding e = None ∧
       ingestedAt e = now).
Proof.
  intros Hfresh Hinj store'. subst store'. unfold saveEvents.
  destruct rawEvents as [| raw0 rest]; [simpl |].
  { split; [done |]. split; [done |]. split; [lia |]. split; [done |].
    intros i raw Hraw. by rewrite lookup_nil in Hraw. }
  rewrite bool_decide_eq_false_2 by done.
  set (rawEvents := raw0 :: rest) in *.
  set (mk := λ (i : nat) (data : EventData.t), newEvent data (supply i) now).
  destruct (saveAll_fresh (toEventData wanted <$> rawEvents) supply mk
              (eventsRepository store)) as (Hnew & Hold & Hsize).
  { done. }
  { intros i Hi. apply Hfresh. by rewrite length_fmap in Hi. }
  { intros i j Hi Hj. rewrite length_fmap in Hi, Hj. by apply Hinj. }
  rewrite length_fmap in Hsize, Hold.
  unfold createBatch. cbn [snd eventsRepository batches].
  fold mk. split; [done |]. split; [| split; [exact Hsize | split]].
  - intros _. rewrite length_imap, length_fmap.
    rewrite (ids_of_batch _ supply mk) by done. rewrite length_fmap.
    done.
  - intros k e Hk. rewrite Hold; [done |].
    intros i Hi ->. rewrite Hfresh in Hk by done. done.
  - intros i raw Hraw.
    exists (mk i (toEventData wanted raw)). split.
    + apply Hnew. by rewrite list_lookup_fmap, Hraw.
    + done.
Qed.

(** [saveEvents] stores a batch under its source.  For an empty list
    nothing happens.  Otherwise, the uuids being new and distinct, one
    row per raw event is added to the rows already stored, carrying the
    given source and the raw event's timestamp, type, entity and value,
    with no summary, sentiment or embedding; one [event.batch.created]
    event is emitted, and it names that source, the number of raw
    events and the ids of the new rows in order. *)
Theorem saveEvents_batch (rawEvents : list RawEvent) (wanted : EventSource)
    (supply : nat → string) (now : Date) (store : Store) :
  (∀ i, (i < length rawEvents)%nat →
     eventsRepository store !! supply i = None) →
  (∀ i j, (i < length rawEvents)%nat → (j < length rawEvents)%nat →
     supply i = supply j → i = j) →
  let store' := saveEvents rawEvents wanted supply now store in
  (rawEvents = [] → store' = store) ∧
  (rawEvents ≠ [] →
   batches store'
   = batches store
     ++ [EVENT_BATCH_CREATED (length rawEvents) (Some wanted)
           (supply <$> seq 0 (length rawEvents))]) ∧
  size (eventsRepository store')
  = (size (eventsRepository store) + length rawEvents)%nat ∧
  (∀ k e, eventsRepository store !! k = Some e →
     eventsRepository store' !! k = Some e) ∧
  (∀ i raw, rawEvents !! i = Some raw →
     ∃ e, eventsRepository store' !! supply i = Some e ∧
       id e = supply i ∧ source e = wanted ∧
       timestamp e = rawTimestamp raw ∧ eventType e = rawEventType raw ∧
       entity e = rawEntity raw ∧ value e = rawValue raw ∧
       metadata e = rawMetadata raw ∧
       summary e = None ∧ sentiment e = None ∧ embedding e = None ∧
       ingestedAt e = now).
Proof. apply saveEvents_rows. Qed.

Lemma saveEvents_batch_witness :
  let raw := {| rawTimestamp := 5; rawEventType := "fed_rate";
                rawEntity := Some "FEDFUNDS"; rawValue := Some (21 # 4);
                rawMetadata := None |} in
  let store := {| eventsRepository := ∅; batches := [] |} in
  let store' := saveEvents [raw] FRED (λ _, "e1") 9 store in
  batches store' = [EVENT_BATCH_CREATED 1 (Some FRED) ["e1"]] ∧
  size (eventsRepository store') = 1%nat.
Proof.
  intros raw store store'.
  destruct (saveEvents_batch [raw] FRED (λ _, "e1") 9 store)
    as (_ & Hbatch & Hsize & _).
  - intros i _. apply lookup_empty.
  - intros i j Hi Hj _. simpl in Hi, Hj. lia.
  - split; [by apply Hbatch | exact Hsize].
Defined.

(** What the scheduler saves is found by [getEventTimeSeries]: a raw
    event saved under a source, whose timestamp lies in the range asked
    for, has a point in the series of that source and of its event
    type, with its timestamp and entity; the value of the point is the
    raw value when that is present, zero included, and 1 when the raw
    event has none. *)
Theorem saved_event_in_series (rawEvents : list RawEvent)
    (wanted : EventSource) (supply : nat → string) (now : Date)
    (store : Store) (i : nat) (raw : RawEvent) (startDate endDate : Date) :
  (∀ i, (i < length rawEvents)%nat →
     eventsRepository store !! supply i = None) →
  (∀ i j, (i < length rawEvents)%nat → (j < length rawEvents)%nat →
     supply i = supply j → i = j) →
  rawEvents !! i = Some raw →
  (startDate ≤ rawTimestamp raw ≤ endDate)%Z →
  let store' := saveEvents rawEvents wanted supply now store in
  ∃ p,
    p ∈ getEventTimeSeries (eventsRepository store') wanted
          (rawEventType raw) startDate endDate ∧
    pointTimestamp p = rawTimestamp raw ∧
    pointEntity p = rawEntity raw ∧
    pointValue p = match rawValue raw with Some q => q | None => 1 end.
Proof.
  intros Hfresh Hinj Hraw Hrange store'.
  destruct (saveEvents_rows rawEvents wanted supply now store Hfresh Hinj)
    as (_ & _ & _ & _ & Hrows).
  destruct (Hrows i raw Hraw)
    as (e & Hkey & _ & Hsrc & Hts & Hty & Hent & Hval & _).
  fold store' in Hkey.
  destruct (EventsFacts.getEventTimeSeries_range_and_order
              (eventsRepository store') wanted (rawEventType raw)
              startDate endDate) as (Helem & _).
  exists (toPoint e). split.
  - apply Helem. exists e. split; [by exists (supply i) |].
    split; [done |]. split; [done |]. split; [by rewrite Hts | done].
  - unfold toPoint. simpl. rewrite Hts, Hent, Hval. done.
Qed.

Lemma saved_event_in_series_witness :
  let raw := {| rawTimestamp := 5; rawEventType := "fed_rate";
                rawEntity := Some "FEDFUNDS"; rawValue := Some (21 # 4);
                rawMetadata := None |} in
  let store := {| eventsRepository := ∅; batches := [] |} in
  let store' := saveEvents [raw] FRED (λ _, "e1") 9 store in
  ∃ p,
    p ∈ getEventTimeSeries (eventsRepository store') FRED "fed_rate" 0 10 ∧
    pointTimestamp p = 5%Z ∧ pointValue p = 21 # 4.
Proof.
  intros raw store store'.
  destruct (saved_event_in_series [raw] FRED (λ _, "e1") 9 store 0 raw 0 10)
    as (p & Hin & Hts & _ & Hval).
  - intros i _. apply lookup_empty.
  - intros i j Hi Hj _. simpl in Hi, Hj. lia.
  - reflexivity.
  - simpl. lia.
  - exists p. split; [exact Hin |]. split; [exact Hts | exact Hval].
Defined.

End IngestionSchedulerFacts.

(** ** Properties of FredService *)

Module FredFacts.
Import BaseIngestionService FredService.

Section Fetch.
Context {number instant E : Type}.
Variable parseFloat : string → number.
Variable newDate : string → instant.
Variable http : string → nat → Settled FredResponse E.

Local Abbreviation seriesEvents := (seriesEvents parseFloat newDate http).
Local Abbreviation fetchSeries := (fetchSeries parseFloat newDate http).
Local Abbreviation toEvents := (toEvents parseFloat newDate).

Lemma fetch_loop (series : list TrackedSeries)
    (events : list (RawEvent (number := number) (instant := instant)))
    (steps : list (Step E)) :
  foldl
    (λ '(events, steps) s,
       (events ++ seriesEvents s,
        steps ++ (fetchSeries (seriesId s) (seriesEventType s)).2))
    (events, steps) series
  = (events ++ flat_map seriesEvents series,
     steps
     ++ flat_map (λ s, (fetchSeries (seriesId s) (seriesEventType s)).2)
          series).
Proof.
  revert events steps.
  induction series as [| s series IH]; intros events steps; simpl.
  - by rewrite !app_nil_r.
  - by rewrite IH, !app_assoc.
Qed.

Lemma fetchSeries_calls (series wantedType : string) :
  (calls (fetchSeries series wantedType).2 ≤ 3)%nat.
Proof.
  unfold FredService.fetchSeries, fetchWithRetry_default, fetchWithRetry.
  pose proof (IngestionFacts.loop_calls_le (http series) 3 1000 3 0) as Hle.
  by destruct (loop (http series) 3 1000 3 0) as [result steps].
Qed.

Lemma seriesEvents_cases (s : TrackedSeries) :
  ((∀ i, (i < 3)%nat → ∃ e, http (seriesId s) i = Rejected e) →
   seriesEvents s = []) ∧
  (∀ k response,
     (k < 3)%nat →
     (∀ i, (i < k)%nat → ∃ e, http (seriesId s) i = Rejected e) →
     http (seriesId s) k = Resolved response →
     seriesEvents s = toEvents (seriesId s) (seriesEventType s) response) ∧
  (seriesEvents s = [] ∨
   ∃ response, seriesEvents s
               = toEvents (seriesId s) (seriesEventType s) response).
Proof.
  unfold FredService.seriesEvents, FredService.fetchSeries,
    fetchWithRetry_default, fetchWithRetry.
  destruct (RetryOutcomeFacts.loop_outcome (http (seriesId s)) 3 1000 3 0)
    as (Hres & Hrej & Hguard); [lia |].
  destruct (loop (http (seriesId s)) 3 1000 3 0) as [result steps].
  simpl in *.
  destruct result as [response | [e |]]; simpl.
  - destruct (Hres response eq_refl) as (k & _ & Hk & Hok & Hbefore & _).
    split; [| split; [| right; by eexists]].
    + intros Hall. destruct (Hall k Hk) as [e He]. congruence.
    + intros k' response' Hk' Hbefore' Hok'.
      destruct (Nat.lt_trichotomy k k') as [Hlt | [-> | Hgt]].
      * destruct (Hbefore' k Hlt) as [e He]. congruence.
      * congruence.
      * destruct (Hbefore k') as [e He]; [lia | lia |]. congruence.
  - destruct (Hrej e eq_refl) as (_ & _ & Hall & _).
    split; [done |]. split; [| by left].
    intros k response Hk _ Hok.
    destruct (Hall k) as [e' He']; [lia | lia |]. congruence.
  - destruct Hguard as [Hzero _]. by specialize (Hzero eq_refl).
Qed.

Lemma calls_flat_map {A} (f : A → list (Step E)) (l : list A) (n : nat) :
  (∀ x, (calls (f x) ≤ n)%nat) →
  (calls (flat_map f l) ≤ n * length l)%nat.
Proof.
  intros Hle. induction l as [| x l IH]; simpl; [lia |].
  rewrite IngestionFacts.calls_app. specialize (Hle x). lia.
Qed.

Lemma fred_fetch_core (apiKey : string) :
  let run := fetch parseFloat newDate http apiKey in
  (apiKey = "" → run = ([], [])) ∧
  (apiKey ≠ "" → run.1 = flat_map seriesEvents trackedSeries) ∧
  (calls run.2 ≤ 30)%nat ∧
  (∀ s,
     ((∀ i, (i < 3)%nat → ∃ e, http (seriesId s) i = Rejected e) →
      seriesEvents s = []) ∧
     (∀ k response,
        (k < 3)%nat →
        (∀ i, (i < k)%nat → ∃ e, http (seriesId s) i = Rejected e) →
        http (seriesId s) k = Resolved response →
        seriesEvents s
        = toEvents (seriesId s) (seriesEventType s) response)) ∧
  (∀ ev, ev ∈ run.1 →
     ∃ s, s ∈ trackedSeries ∧ entity ev = seriesId s ∧
          eventType ev = seriesEventType s ∧
          metadataSeriesId ev = seriesId s ∧
          metadataRawValue ev ≠ ".").
Proof.
  intros run. subst run. unfold fetch.
  destruct (bool_decide (apiKey = "")) eqn:Hkey.
  - apply bool_decide_eq_true in Hkey.
    split; [done |]. split; [done |]. split; [simpl; lia |].
    split; [| intros ev Hev; by apply elem_of_nil in Hev].
    intros s. destruct (seriesEvents_cases s) as (Hnone & Hsome & _).
    by split.
  - apply bool_decide_eq_false in Hkey. rewrite fetch_loop. cbn [fst snd].
    rewrite !app_nil_l.
    split; [done |]. split; [done |]. split; [| split].
    + pose proof (calls_flat_map
                    (λ s, (fetchSeries (seriesId s) (seriesEventType s)).2)
                    trackedSeries 3) as Hle.
      simpl length in Hle. apply Hle.
      intros s. apply fetchSeries_calls.
    + intros s. destruct (seriesEvents_cases s) as (Hnone & Hsome & _).
      by split.
    + intros ev Hev.
      apply list_elem_of_In, in_flat_map in Hev as (s & Hs & Hev).
      exists s. split; [by apply list_elem_of_In |].
      destruct (seriesEvents_cases s) as (_ & _ & [Hnil | [response Hr]]).
      * rewrite Hnil in Hev. done.
      * rewrite Hr in Hev. unfold FredService.toEvents in Hev.
        apply list_elem_of_In, list_elem_of_fmap in Hev as (obs & -> & Hobs).
        apply list_elem_of_In, filter_In in Hobs as [_ Hrep].
        unfold reported in Hrep.
        rewrite negb_true_iff, bool_decide_eq_false in Hrep.
        by repeat split.
Qed.

End Fetch.

(** [FredService.fetch] keeps the failure of one series from the
    others.  Without an API key it returns no event and makes no
    request.  With a key its result is, in the order of the tracked
    series, the events of each series: none for a series whose three
    attempts all fail, and those of the first document that arrives
    otherwise; at most 30 requests are made in all.  Every event carries
    the id of a tracked series as its entity and that series' event
    type, and comes from an observation whose value is not ".". *)
Theorem fetch_isolates_series {number instant E : Type}
    (parseFloat : string → number) (newDate : string → instant)
    (http : string → nat → Settled FredResponse E) (apiKey : string) :
  let run := fetch parseFloat newDate http apiKey in
  (apiKey = "" → run = ([], [])) ∧
  (apiKey ≠ "" →
   run.1 = flat_map (seriesEvents parseFloat newDate http) trackedSeries) ∧
  (calls run.2 ≤ 30)%nat ∧
  (∀ s,
     ((∀ i, (i < 3)%nat → ∃ e, http (seriesId s) i = Rejected e) →
      seriesEvents parseFloat newDate http s = []) ∧
     (∀ k response,
        (k < 3)%nat →
        (∀ i, (i < k)%nat → ∃ e, http (seriesId s) i = Rejected e) →
        http (seriesId s) k = Resolved response →
        seriesEvents parseFloat newDate http s
        = toEvents parseFloat newDate (seriesId s) (seriesEventType s)
            response)) ∧
  (∀ ev, ev ∈ run.1 →
     ∃ s, s ∈ trackedSeries ∧ entity ev = seriesId s ∧
          eventType ev = seriesEventType s ∧
          metadataSeriesId ev = seriesId s ∧
          metadataRawValue ev ≠ ".").
Proof. apply fred_fetch_core. Qed.

End FredFacts.
